(** * MSGAI-ZA: the audit-protocol state machine

    A shallow embedding of the state store, the vibration gauge and the
    ledger acts of

      - js/core_logic.js   (getCurrentState, saveSystemState, addVibration,
                            decayVibration, resetVibration)
      - js/audit_acts.js   (actForcedHalt, actRestart, handleCreateAccountAct,
                            validateAct, actTransfer, actMintCurrency,
                            actExchangeCurrency)
      - js/infra_acts.js   (actAdjustSupply)

    Modelling conventions.

    - A JavaScript number is an extended rational: [NaN], the two
      infinities, or a finite rational.  Rounding, overflow and the sign of
      zero are not modelled; [NaN] propagation, comparisons with [NaN],
      division by zero and [Infinity - Infinity] follow IEEE 754.
    - A property read [obj[key]] returns an [option]: [None] is
      [undefined].  [ToNumber] and [or0] are the coercions the source relies
      on ([undefined - x], [undefined < x], [x || 0]).
    - A value that is a string, [null] or [undefined] (an id read from a
      form field) is an [option string].
    - An account is its [id], its [name] and the map of its remaining
      properties, the balances; currency codes are assumed to differ from
      the property names [id] and [name].
    - The acts are [async]; they are modelled run to completion, one at a
      time.  [updateDoc] is the persistence collaborator: the model records
      each patch handed to it.  [logToConsole] appends to the console.
    - The values the acts read from the DOM and [Date.now()] are arguments. *)

From Stdlib Require Import QArith Qabs Lqa Bool.
From stdpp Require Import gmap strings list.

Set Default Proof Using "Type".

(* ===================================================================== *)
(** ** JavaScript numbers *)
(* ===================================================================== *)

Inductive number : Type :=
| NaN
| Infinity
| NegInfinity
| Finite (q : Q).

Declare Scope js_scope.
Delimit Scope js_scope with js.
Bind Scope js_scope with number.

Module JS.

Definition isNaN (x : number) : bool :=
  match x with NaN => true | _ => false end.

Definition neg (x : number) : number :=
  match x with
  | NaN => NaN
  | Infinity => NegInfinity
  | NegInfinity => Infinity
  | Finite q => Finite (- q)
  end.

Definition add (x y : number) : number :=
  match x, y with
  | NaN, _ | _, NaN => NaN
  | Infinity, NegInfinity | NegInfinity, Infinity => NaN
  | Infinity, _ | _, Infinity => Infinity
  | NegInfinity, _ | _, NegInfinity => NegInfinity
  | Finite a, Finite b => Finite (a + b)
  end.

Definition sub (x y : number) : number := add x (neg y).

(** The sign of a number that is not [NaN]. *)
Definition sign (x : number) : comparison :=
  match x with
  | NaN => Eq
  | Infinity => Gt
  | NegInfinity => Lt
  | Finite q => (q ?= 0)%Q
  end.

Definition signed_infinity (s : comparison) : number :=
  match s with Gt => Infinity | Lt => NegInfinity | Eq => NaN end.

Definition sign_mul (s t : comparison) : comparison :=
  match s, t with
  | Eq, _ | _, Eq => Eq
  | Gt, Gt | Lt, Lt => Gt
  | _, _ => Lt
  end.

Definition mul (x y : number) : number :=
  match x, y with
  | NaN, _ | _, NaN => NaN
  | Finite a, Finite b => Finite (a * b)
  | _, _ => signed_infinity (sign_mul (sign x) (sign y))
  end.

Definition div (x y : number) : number :=
  match x, y with
  | NaN, _ | _, NaN => NaN
  | Finite a, Finite b =>
      if Qeq_bool b 0 then signed_infinity (a ?= 0)%Q else Finite (a / b)
  | Finite _, _ => Finite 0
  | _, Finite b =>
      if Qle_bool 0 b then x else neg x
  | _, _ => NaN
  end.

Definition leb (x y : number) : bool :=
  match x, y with
  | NaN, _ | _, NaN => false
  | NegInfinity, _ | _, Infinity => true
  | Infinity, _ | _, NegInfinity => false
  | Finite a, Finite b => Qle_bool a b
  end.

Definition ltb (x y : number) : bool :=
  match x, y with
  | NaN, _ | _, NaN => false
  | Infinity, _ | _, NegInfinity => false
  | NegInfinity, _ | _, Infinity => true
  | Finite a, Finite b => negb (Qle_bool b a)
  end.

Definition geb (x y : number) : bool := leb y x.

(** [Math.min], [Math.max], [Math.abs]. *)
Definition min (x y : number) : number :=
  match x, y with
  | NaN, _ | _, NaN => NaN
  | _, _ => if leb x y then x else y
  end.

Definition max (x y : number) : number :=
  match x, y with
  | NaN, _ | _, NaN => NaN
  | _, _ => if leb x y then y else x
  end.

Definition abs (x : number) : number :=
  match x with
  | NaN => NaN
  | Infinity | NegInfinity => Infinity
  | Finite q => Finite (Qabs q)
  end.

(** [ToBoolean] on a number: [NaN] and zero are falsy. *)
Definition truthy (x : number) : bool :=
  match x with
  | NaN => false
  | Finite q => negb (Qeq_bool q 0)
  | _ => true
  end.

(** [ToNumber] on the result of a property read. *)
Definition ToNumber (o : option number) : number :=
  match o with Some x => x | None => NaN end.

(** [o || 0]. *)
Definition or0 (o : option number) : number :=
  match o with
  | Some x => if truthy x then x else Finite 0
  | None => Finite 0
  end.

(** [ToBoolean] on a string, [null] or [undefined]. *)
Definition truthy_str (s : option string) : bool :=
  match s with
  | Some s => negb (String.eqb s "")
  | None => false
  end.

(** [a === b] where [a] is a string. *)
Definition str_eq (a : string) (b : option string) : bool :=
  match b with
  | Some b => String.eqb a b
  | None => false
  end.

End JS.

Notation "x + y" := (JS.add x y) : js_scope.
Notation "x - y" := (JS.sub x y) : js_scope.
Notation "x * y" := (JS.mul x y) : js_scope.
Notation "x / y" := (JS.div x y) : js_scope.
Notation "x <? y" := (JS.ltb x y) : js_scope.
Notation "x <=? y" := (JS.leb x y) : js_scope.
Notation "x >=? y" := (JS.geb x y) : js_scope.

(* ===================================================================== *)
(** ** The system state (core_logic.js) *)
(* ===================================================================== *)

Definition VIBRATION_LIMIT : number := Finite 100.

(** [vibration_level: { value, last_decay }] *)
Record vibration : Type := {
  value : number;
  last_decay : number
}.

(** An element of [accounts]: [{ id, name, ALPHA, BETA, GAMMA }]. *)
Record account : Type := {
  id : string;
  name : string;
  balances : gmap string number
}.

(** An entry of [infrastructure]: [{ value, last_change }]. *)
Record supply : Type := {
  supply_value : number;
  last_change : number
}.

(** [currentState].  The initial state has no [infrastructure] property;
    spreading [undefined] yields no properties, so the empty map stands for
    it. *)
Record SystemState : Type := {
  isHalted : bool;
  vibration_level : vibration;
  currency_rates : gmap string number;
  accounts : list account;
  infrastructure : gmap string supply
}.

(** The argument of [saveSystemState]: an object holding some of the
    properties of the state. *)
Record updateData : Type := {
  upd_isHalted : option bool;
  upd_vibration_level : option vibration;
  upd_accounts : option (list account);
  upd_infrastructure : option (gmap string supply)
}.

(** The object literals the acts pass: [{ isHalted: b }], ... *)
Definition set_isHalted (b : bool) : updateData :=
  {| upd_isHalted := Some b; upd_vibration_level := None;
     upd_accounts := None; upd_infrastructure := None |}.
Definition set_vibration_level (v : vibration) : updateData :=
  {| upd_isHalted := None; upd_vibration_level := Some v;
     upd_accounts := None; upd_infrastructure := None |}.
Definition set_accounts (l : list account) : updateData :=
  {| upd_isHalted := None; upd_vibration_level := None;
     upd_accounts := Some l; upd_infrastructure := None |}.
Definition set_infrastructure (m : gmap string supply) : updateData :=
  {| upd_isHalted := None; upd_vibration_level := None;
     upd_accounts := None; upd_infrastructure := Some m |}.

(** [{ ...currentState, ...updateData }]: a property of the patch replaces
    the property of the state as a whole. *)
Definition merge (s : SystemState) (u : updateData) : SystemState :=
  {| isHalted := default (isHalted s) (upd_isHalted u);
     vibration_level := default (vibration_level s) (upd_vibration_level u);
     currency_rates := currency_rates s;
     accounts := default (accounts s) (upd_accounts u);
     infrastructure := default (infrastructure s) (upd_infrastructure u) |}.

(** *** Console *)

(** The messages of [validateAct]. *)
Inductive error : Type :=
| SystemHalted
| VibrationExceeded
| InvalidAmount
| UnknownCurrency
| SenderNotFound (senderId : option string)
| RecipientNotFound (recipientId : option string)
| InsufficientBalance (senderId : option string) (currency : string).

(** What the acts write to the console. *)
Inductive message : Type :=
| MsgHaltAlready
| MsgHalt
| MsgRestartAlready
| MsgRestart
| MsgCreateInvalid
| MsgCreateHalted
| MsgCreate (newId : string) (newName : option string)
| MsgTransferError (e : error)
| MsgTransfer (senderId recipientId : option string) (amount : number)
    (currency : string)
| MsgMintError (e : error)
| MsgMint (recipientId : option string) (amount : number) (currency : string)
| MsgExchangeError (e : error)
| MsgExchangeSameCurrency
| MsgExchange (accountId : option string) (amount : number)
    (fromCurrency : string) (receivedAmount : number) (toCurrency : string)
    (rate : number)
| MsgInfraError
| MsgInfra (infrastructureType : string) (amount : number).

(** *** The world: local state, persistence collaborator, console *)

Record World : Type := {
  currentState : SystemState;
  (** the patches handed to [updateDoc], the latest first *)
  firestore : list updateData;
  (** the lines of the console with their class, the latest first *)
  console : list (message * string)
}.

Definition logToConsole (m : message) (className : string) (w : World)
  : World :=
  {| currentState := currentState w;
     firestore := firestore w;
     console := (m, className) :: console w |}.

(** [getCurrentState]: a copy of the current state. *)
Definition getCurrentState (w : World) : SystemState := currentState w.

(** [saveSystemState]: the local state is replaced at once, then the patch
    goes to the store. *)
Definition saveSystemState (u : updateData) (w : World) : World :=
  {| currentState := merge (currentState w) u;
     firestore := u :: firestore w;
     console := console w |}.

(* ===================================================================== *)
(** ** Vibration management (core_logic.js) *)
(* ===================================================================== *)

Definition addVibration (amount : number) (w : World) : World :=
  let v := vibration_level (currentState w) in
  let newVibration :=
    JS.min (value v + amount)%js (VIBRATION_LIMIT * Finite 2)%js in
  saveSystemState
    (set_vibration_level {| value := newVibration; last_decay := last_decay v |})
    w.

(** [decayVibration], with [now] the result of [Date.now()].  The branch
    that does not save assigns the two properties of
    [currentState.vibration_level] in place. *)
Definition decayVibration (now : number) (w : World) : World :=
  let v := vibration_level (currentState w) in
  let lastDecay := last_decay v in
  let timeElapsed := ((now - lastDecay) / Finite 1000)%js in
  if (timeElapsed >=? Finite 1)%js then
    let decayRate := Finite (1 # 2) in
    let decayAmount := (timeElapsed * decayRate)%js in
    let newValue := JS.max (Finite 0) (value v - decayAmount)%js in
    if (JS.abs (newValue - value v) >=? Finite 1)%js then
      saveSystemState
        (set_vibration_level {| value := newValue; last_decay := now |}) w
    else
      {| currentState :=
           merge (currentState w)
             (set_vibration_level {| value := newValue; last_decay := now |});
         firestore := firestore w;
         console := console w |}
  else w.

Definition resetVibration (now : number) (w : World) : World :=
  saveSystemState
    (set_vibration_level {| value := Finite 0; last_decay := now |}) w.

(** The operations of the gauge, for sequences of them. *)
Inductive gauge_op : Type :=
| Add (amount : number)
| Decay (now : number)
| Reset (now : number).

Definition gauge_step (w : World) (o : gauge_op) : World :=
  match o with
  | Add amount => addVibration amount w
  | Decay now => decayVibration now w
  | Reset now => resetVibration now w
  end.

Definition gauge_run (ops : list gauge_op) (w : World) : World :=
  fold_left gauge_step ops w.

(* ===================================================================== *)
(** ** Core acts: halt and restart (audit_acts.js) *)
(* ===================================================================== *)

Definition actForcedHalt (w : World) : World :=
  let state := getCurrentState w in
  if isHalted state then
    logToConsole MsgHaltAlready "error-message" w
  else
    let w := saveSystemState (set_isHalted true) w in
    let w := logToConsole MsgHalt "audit-message" w in
    addVibration (Finite 5) w.

Definition actRestart (w : World) : World :=
  let state := getCurrentState w in
  if negb (isHalted state) then
    logToConsole MsgRestartAlready "system-message" w
  else
    let w := saveSystemState (set_isHalted false) w in
    let w := logToConsole MsgRestart "system-message" w in
    addVibration (Finite 5) w.

(* ===================================================================== *)
(** ** Core acts: account management (audit_acts.js) *)
(* ===================================================================== *)

(** [acc.id === x] *)
Definition has_id (x : option string) (acc : account) : bool :=
  JS.str_eq (id acc) x.

(** [newId] and [newName] are the trimmed values of the two form fields. *)
Definition handleCreateAccountAct (newId newName : option string) (w : World)
  : World :=
  let state := getCurrentState w in
  if negb (JS.truthy_str newId) || existsb (has_id newId) (accounts state) then
    logToConsole MsgCreateInvalid "error-message" w
  else if isHalted state then
    logToConsole MsgCreateHalted "error-message" w
  else
    let i := default "" newId in
    let newAccount :=
      {| id := i;
         name := if JS.truthy_str newName then default "" newName
                 else "監査アカウント " +:+ i;
         balances := {[ "ALPHA" := Finite 0; "BETA" := Finite 0;
                        "GAMMA" := Finite 0 ]} |} in
    let newAccounts := accounts state ++ [newAccount] in
    let w := saveSystemState (set_accounts newAccounts) w in
    let w := logToConsole (MsgCreate i newName) "audit-message" w in
    addVibration (Finite 1) w.

(* ===================================================================== *)
(** ** Core acts: currencies (audit_acts.js) *)
(* ===================================================================== *)

(** An element of [KNOWLEDGE.DEFINITIONS.CURRENCIES]; the acts read its
    [code] only. *)
Record currency_def : Type := { code : string }.

(** [acc[currency]] *)
Definition prop (acc : account) (currency : string) : option number :=
  balances acc !! currency.

(** [{ ...acc, [currency]: v }] *)
Definition with_prop (acc : account) (currency : string) (v : number)
  : account :=
  {| id := id acc; name := name acc;
     balances := <[currency := v]> (balances acc) |}.

(** The object [validateAct] returns when no check fails. *)
Record validated : Type := {
  v_sender : option account;
  v_recipient : option account;
  v_amount : number;
  v_currency : string
}.

Inductive validation : Type :=
| Error (e : error)
| Valid (v : validated).

Section Acts.

(** [KNOWLEDGE.DEFINITIONS.CURRENCIES] is defined in js/knowledge_base.js,
    which is not among the sources: the table is a parameter. *)
Variable CURRENCIES : list currency_def.

Definition known_currency (currency : string) : bool :=
  existsb (fun c => String.eqb (code c) currency) CURRENCIES.

(** In the last check [sender] is an account whenever it is read: the
    check is skipped for a mint, and otherwise the fifth check has
    returned when [sender] is [undefined]. *)
Definition validateAct (senderId recipientId : option string)
    (amount : number) (currency : string) (state : SystemState)
    (isMint : bool) : validation :=
  if isHalted state then Error SystemHalted
  else if (value (vibration_level state) >=? VIBRATION_LIMIT)%js then
    Error VibrationExceeded
  else if (amount <=? Finite 0)%js || JS.isNaN amount then
    Error InvalidAmount
  else if negb (known_currency currency) then Error UnknownCurrency
  else
    let sender := find (has_id senderId) (accounts state) in
    let recipient := find (has_id recipientId) (accounts state) in
    if negb isMint && negb (bool_decide (is_Some sender)) then
      Error (SenderNotFound senderId)
    else if JS.truthy_str recipientId
            && negb (bool_decide (is_Some recipient)) then
      Error (RecipientNotFound recipientId)
    else if negb isMint
            && (JS.ToNumber (sender ≫= fun s => prop s currency)
                <? amount)%js then
      Error (InsufficientBalance senderId currency)
    else
      Valid {| v_sender := sender; v_recipient := recipient;
               v_amount := amount; v_currency := currency |}.

Definition actTransfer (senderId recipientId : option string)
    (amount : number) (currency : string) (w : World) : World :=
  let state := getCurrentState w in
  match validateAct senderId recipientId amount currency state false with
  | Error e => logToConsole (MsgTransferError e) "error-message" w
  | Valid validation =>
      let newAccounts :=
        map (fun acc =>
               if has_id senderId acc then
                 with_prop acc currency
                   (JS.ToNumber (prop acc currency) - v_amount validation)%js
               else if has_id recipientId acc then
                 with_prop acc currency
                   (JS.or0 (prop acc currency) + v_amount validation)%js
               else acc)
            (accounts state) in
      let w := saveSystemState (set_accounts newAccounts) w in
      let w :=
        logToConsole
          (MsgTransfer senderId recipientId (v_amount validation) currency)
          "audit-message" w in
      addVibration (Finite 2) w
  end.

Definition actMintCurrency (recipientId : option string) (amount : number)
    (currency : string) (w : World) : World :=
  let state := getCurrentState w in
  match validateAct None recipientId amount currency state true with
  | Error e => logToConsole (MsgMintError e) "error-message" w
  | Valid validation =>
      let newAccounts :=
        map (fun acc =>
               if has_id recipientId acc then
                 with_prop acc currency
                   (JS.or0 (prop acc currency) + v_amount validation)%js
               else acc)
            (accounts state) in
      let w := saveSystemState (set_accounts newAccounts) w in
      let w :=
        logToConsole (MsgMint recipientId (v_amount validation) currency)
          "audit-message" w in
      addVibration (Finite 3) w
  end.

Definition actExchangeCurrency (accountId : option string)
    (amount : number) (fromCurrency toCurrency : string) (w : World)
  : World :=
  let state := getCurrentState w in
  match validateAct accountId accountId amount fromCurrency state false with
  | Error e => logToConsole (MsgExchangeError e) "error-message" w
  | Valid validation =>
      if String.eqb fromCurrency toCurrency then
        logToConsole MsgExchangeSameCurrency "error-message" w
      else
        let rateFrom := currency_rates state !! fromCurrency in
        let rateTo := currency_rates state !! toCurrency in
        let rate := (JS.ToNumber rateTo / JS.ToNumber rateFrom)%js in
        let receivedAmount := (amount * rate)%js in
        let newAccounts :=
          map (fun acc =>
                 if has_id accountId acc then
                   with_prop
                     (with_prop acc fromCurrency
                        (JS.ToNumber (prop acc fromCurrency)
                         - v_amount validation)%js)
                     toCurrency
                     (JS.or0 (prop acc toCurrency) + receivedAmount)%js
                 else acc)
              (accounts state) in
        let w := saveSystemState (set_accounts newAccounts) w in
        let w :=
          logToConsole
            (MsgExchange accountId (v_amount validation) fromCurrency
               receivedAmount toCurrency rate)
            "audit-message" w in
        addVibration (Finite 1) w
  end.

End Acts.

(* ===================================================================== *)
(** ** Infrastructure acts (infra_acts.js) *)
(* ===================================================================== *)

(** [amount] is the parsed value of the form field, [now] the result of
    [Date.now()]. *)
Definition actAdjustSupply (infrastructureType : string) (amount now : number)
    (w : World) : World :=
  if JS.isNaN amount || (amount <? Finite 0)%js || (Finite 100 <? amount)%js
  then logToConsole MsgInfraError "error-message" w
  else
    let state := getCurrentState w in
    let targetKey :=
      if String.eqb infrastructureType "ENERGY" then "energy_supply"
      else "net_stability" in
    let newInfrastructureState :=
      <[targetKey := {| supply_value := amount; last_change := now |}]>
        (infrastructure state) in
    let w := saveSystemState (set_infrastructure newInfrastructureState) w in
    let vibeCost := Finite 1 in
    let w := addVibration vibeCost w in
    logToConsole (MsgInfra infrastructureType amount) "system-message" w.

(* ===================================================================== *)
(** ** The acts as a transition system *)
(* ===================================================================== *)

(** One constructor per exported act, with the values it reads from its
    form fields; the last two are the timer's tick and the reset command. *)
Inductive act : Type :=
| ForcedHalt
| Restart
| CreateAccount (newId newName : option string)
| Transfer (senderId recipientId : option string) (amount : number)
    (currency : string)
| MintCurrency (recipientId : option string) (amount : number)
    (currency : string)
| ExchangeCurrency (accountId : option string) (amount : number)
    (fromCurrency toCurrency : string)
| AdjustSupply (infrastructureType : string) (amount now : number)
| DecayVibration (now : number)
| ResetVibration (now : number).

Definition perform (CURRENCIES : list currency_def) (a : act) (w : World)
  : World :=
  match a with
  | ForcedHalt => actForcedHalt w
  | Restart => actRestart w
  | CreateAccount newId newName => handleCreateAccountAct newId newName w
  | Transfer senderId recipientId amount currency =>
      actTransfer CURRENCIES senderId recipientId amount currency w
  | MintCurrency recipientId amount currency =>
      actMintCurrency CURRENCIES recipientId amount currency w
  | ExchangeCurrency accountId amount fromCurrency toCurrency =>
      actExchangeCurrency CURRENCIES accountId amount fromCurrency toCurrency w
  | AdjustSupply infrastructureType amount now =>
      actAdjustSupply infrastructureType amount now w
  | DecayVibration now => decayVibration now w
  | ResetVibration now => resetVibration now w
  end.

Definition run (CURRENCIES : list currency_def) (l : list act) (w : World)
  : World :=
  fold_left (fun w a => perform CURRENCIES a w) l w.

(** *** The initial state of core_logic.js *)

Definition initialState (now : number) : SystemState :=
  {| isHalted := false;
     vibration_level := {| value := Finite 0; last_decay := now |};
     currency_rates :=
       {[ "ALPHA" := Finite 1; "BETA" := Finite 10; "GAMMA" := Finite 100 ]};
     accounts :=
       [ {| id := "CORE_BANK_A"; name := "中央銀行A";
            balances := {[ "ALPHA" := Finite 1000; "BETA" := Finite 500;
                           "GAMMA" := Finite 100 ]} |};
         {| id := "USER_AUDIT_B"; name := "監査者B";
            balances := {[ "ALPHA" := Finite 50; "BETA" := Finite 0;
                           "GAMMA" := Finite 0 ]} |} ];
     infrastructure := ∅ |}.

Definition initialWorld (now : number) : World :=
  {| currentState := initialState now; firestore := []; console := [] |}.

(** The three currencies of the initial state, as a table of the shape of
    [KNOWLEDGE.DEFINITIONS.CURRENCIES], for the examples. *)
Definition initial_currencies : list currency_def :=
  [ {| code := "ALPHA" |}; {| code := "BETA" |}; {| code := "GAMMA" |} ].

(** *** Observations *)

Definition vibration_value (w : World) : number :=
  value (vibration_level (currentState w)).

(** The supply of a currency: the sum of the balances that are finite
    numbers, over all accounts. *)
Definition finite_part (o : option number) : Q :=
  match o with Some (Finite q) => q | _ => 0%Q end.

Definition total_supply (currency : string) (s : SystemState) : Q :=
  fold_right (fun acc t => (finite_part (prop acc currency) + t)%Q) 0%Q
    (accounts s).

(** The balance of the first account with the given id. *)
Definition balance_of (x : option string) (currency : string)
    (s : SystemState) : option number :=
  find (has_id x) (accounts s) ≫= fun acc => prop acc currency.

(** The gauge is within its bounds: [0 <= value <= 2 * VIBRATION_LIMIT]. *)
Definition in_range (v : number) : Prop :=
  (Finite 0 <=? v)%js = true ∧ (v <=? VIBRATION_LIMIT * Finite 2)%js = true.

(** An [add] of the gauge charges an amount that is not negative. *)
Definition charges_nonneg (o : gauge_op) : Prop :=
  match o with
  | Add amount => (Finite 0 <=? amount)%js = true
  | _ => True
  end.

(** The seconds [decayVibration] finds elapsed at [now]. *)
Definition timeElapsed (now : number) (w : World) : number :=
  ((now - last_decay (vibration_level (currentState w))) / Finite 1000)%js.

(** The value [decayVibration] computes when a second or more elapsed. *)
Definition decayed (now : number) (w : World) : number :=
  JS.max (Finite 0)
    (vibration_value w - timeElapsed now w * Finite (1 # 2))%js.

(** *** The validator as the specification words it *)

(** The seven checks in the order of the specification, each with the
    error it reports: the system is halted; the gauge is at the limit or
    above; the amount is zero, negative or not a number; the currency is
    not a configured code; unless minting, no account has the sender's id;
    a recipient id is given and no account has it; unless minting, the
    sender's balance is below the amount. *)
Definition checks (CURRENCIES : list currency_def)
    (senderId recipientId : option string) (amount : number)
    (currency : string) (state : SystemState) (isMint : bool)
  : list (bool * error) :=
  [ (isHalted state, SystemHalted);
    ((value (vibration_level state) >=? VIBRATION_LIMIT)%js,
      VibrationExceeded);
    ((amount <=? Finite 0)%js || JS.isNaN amount, InvalidAmount);
    (bool_decide (currency ∉ code <$> CURRENCIES), UnknownCurrency);
    (negb isMint
     && bool_decide
          (¬ Exists (fun acc => Some (id acc) = senderId) (accounts state)),
      SenderNotFound senderId);
    (bool_decide (recipientId ≠ None ∧ recipientId ≠ Some "")
     && bool_decide
          (¬ Exists (fun acc => Some (id acc) = recipientId) (accounts state)),
      RecipientNotFound recipientId);
    (negb isMint
     && (JS.ToNumber (balance_of senderId currency state) <? amount)%js,
      InsufficientBalance senderId currency) ].

(** The error of the first check that fails, if any. *)
Definition first_failure (l : list (bool * error)) : option error :=
  snd <$> find fst l.

(** *** Rejection of an act *)

(** The precondition of each act fails: halting a halted system,
    restarting a running one, creating an account with an empty or taken
    id or while halted, a transfer, mint or exchange with a failing check,
    an exchange between equal currencies, a supply that is not a number
    in [0, 100]. *)
Definition rejected (CURRENCIES : list currency_def) (a : act)
    (s : SystemState) : bool :=
  match a with
  | ForcedHalt => isHalted s
  | Restart => negb (isHalted s)
  | CreateAccount newId _ =>
      bool_decide (newId = None ∨ newId = Some ""
                   ∨ Exists (fun acc => Some (id acc) = newId) (accounts s))
      || isHalted s
  | Transfer senderId recipientId amount currency =>
      bool_decide
        (is_Some (first_failure
                    (checks CURRENCIES senderId recipientId amount currency
                       s false)))
  | MintCurrency recipientId amount currency =>
      bool_decide
        (is_Some (first_failure
                    (checks CURRENCIES None recipientId amount currency
                       s true)))
  | ExchangeCurrency accountId amount fromCurrency toCurrency =>
      bool_decide
        (is_Some (first_failure
                    (checks CURRENCIES accountId accountId amount fromCurrency
                       s false)))
      || bool_decide (fromCurrency = toCurrency)
  | AdjustSupply _ amount _ =>
      negb (negb (JS.isNaN amount) && (Finite 0 <=? amount)%js
            && (amount <=? Finite 100)%js)
  | DecayVibration _ | ResetVibration _ => false
  end.

(** *** Invariants of the ledger *)

(** No balance is negative. *)
Definition no_negative_balance (s : SystemState) : Prop :=
  ∀ (acc : account) (c : string) (b : number),
    acc ∈ accounts s → prop acc c = Some b → (b <? Finite 0)%js = false.

(** No rate is negative. *)
Definition no_negative_rate (s : SystemState) : Prop :=
  ∀ (c : string) (r : number),
    currency_rates s !! c = Some r → (r <? Finite 0)%js = false.

(** The ids of the accounts are unique. *)
Definition unique_ids (s : SystemState) : Prop :=
  NoDup (id <$> accounts s).

(** The three invariants of the ledger, together. *)
Definition ledger_ok (s : SystemState) : Prop :=
  unique_ids s ∧ no_negative_rate s ∧ no_negative_balance s.

(* ===================================================================== *)
(** ** The vibration meter (updateUI, core_logic.js) *)
(* ===================================================================== *)

(** The meter element as [updateUI] uses it: the percentage of its
    [style.width] and the tokens of its [classList]. *)
Record meter : Type := {
  width : number;
  classList : gset string
}.

(** The block of [updateUI] that styles [UI_ELEMENTS.vibration_meter]. *)
Definition updateUI_meter (state : SystemState) (m : meter) : meter :=
  let v := value (vibration_level state) in
  let percentage :=
    JS.min (Finite 100) (v / VIBRATION_LIMIT * Finite 100)%js in
  {| width := percentage;
     classList :=
       if (v >=? VIBRATION_LIMIT)%js then
         (classList m ∖ {[ "bg-yellow-500"; "bg-green-500" ]})
         ∪ {[ "bg-red-600" ]}
       else if (v >=? VIBRATION_LIMIT * Finite (1 # 2))%js then
         (classList m ∖ {[ "bg-red-600"; "bg-green-500" ]})
         ∪ {[ "bg-yellow-500" ]}
       else
         (classList m ∖ {[ "bg-red-600"; "bg-yellow-500" ]})
         ∪ {[ "bg-green-500" ]} |}.

(** The text [updateUI] gives every halt indicator. *)
Definition halt_indicator (state : SystemState) : string :=
  if isHalted state then "HALTED" else "OPERATIONAL".

(* ===================================================================== *)
(** ** Render callbacks (core_logic.js) *)
(* ===================================================================== *)

Section Callbacks.

(** A JavaScript function as far as [includes] sees it: a value with an
    identity.  The argument of [registerRenderCallback] is [None] when it
    is not a function. *)
Context {callback : Type} `{EqDecision callback}.

Definition registerRenderCallback (callbackFn : option callback)
    (renderCallbacks : list callback) : list callback :=
  match callbackFn with
  | Some fn =>
      if negb (bool_decide (fn ∈ renderCallbacks))
      then renderCallbacks ++ [fn]
      else renderCallbacks
  | None => renderCallbacks
  end.

Definition register_all (fns : list (option callback))
    (renderCallbacks : list callback) : list callback :=
  fold_left (fun l fn => registerRenderCallback fn l) fns renderCallbacks.

End Callbacks.

(* ===================================================================== *)
(** ** Strings as the dialogue acts read them *)
(* ===================================================================== *)

(** A string is the sequence of the bytes of its UTF-8 encoding. *)

(** The canonical form of a character under the flag [i] of a pattern
    without the flag [u]: an ASCII letter is compared by its upper case,
    and no other character is equal to an ASCII letter. *)
Definition canonicalize (c : Ascii.ascii) : Ascii.ascii :=
  let n := Ascii.nat_of_ascii c in
  if (97 <=? n)%nat && (n <=? 122)%nat then Ascii.ascii_of_nat (n - 32)
  else c.

(** [s] is [p] up to the case of ASCII letters. *)
Fixpoint eqb_nocase (p s : string) : bool :=
  match p, s with
  | EmptyString, EmptyString => true
  | String a p', String b s' =>
      Ascii.eqb (canonicalize a) (canonicalize b) && eqb_nocase p' s'
  | _, _ => false
  end.

(** What follows [p] at the head of [s], up to the case of ASCII
    letters. *)
Fixpoint strip_nocase (p s : string) : option string :=
  match p with
  | EmptyString => Some s
  | String a p' =>
      match s with
      | String b s' =>
          if Ascii.eqb (canonicalize a) (canonicalize b)
          then strip_nocase p' s' else None
      | EmptyString => None
      end
  end.

(** What follows one character of the class [\s] at the head of [s]: TAB,
    LF, VT, FF, CR, SPACE, U+00A0, U+1680, U+2000 to U+200A, U+2028,
    U+2029, U+202F, U+205F, U+3000 and U+FEFF. *)
Definition white_space (s : string) : option string :=
  match s with
  | String a r1 =>
      let x := Ascii.nat_of_ascii a in
      if ((9 <=? x) && (x <=? 13) || (x =? 32))%nat then Some r1
      else
        match r1 with
        | String b r2 =>
            let y := Ascii.nat_of_ascii b in
            if ((x =? 194) && (y =? 160))%nat then Some r2
            else
              match r2 with
              | String c r3 =>
                  let z := Ascii.nat_of_ascii c in
                  if ((x =? 225) && (y =? 154) && (z =? 128)
                      || (x =? 226) && (y =? 128)
                         && ((128 <=? z) && (z <=? 138) || (z =? 168)
                             || (z =? 169) || (z =? 175))
                      || (x =? 226) && (y =? 129) && (z =? 159)
                      || (x =? 227) && (y =? 128) && (z =? 128)
                      || (x =? 239) && (y =? 187) && (z =? 191))%nat
                  then Some r3 else None
              | EmptyString => None
              end
        | EmptyString => None
        end
  | EmptyString => None
  end.

(** What follows the longest run of [\s] at the head of [s]. *)
Fixpoint skip_white_space (fuel : nat) (s : string) : string :=
  match fuel with
  | O => s
  | S fuel =>
      match white_space s with
      | Some r => skip_white_space fuel r
      | None => s
      end
  end.

(** [hay.includes(needle)] *)
Fixpoint includes (needle hay : string) : bool :=
  String.prefix needle hay
  || match hay with
     | String _ hay' => includes needle hay'
     | EmptyString => false
     end.

(* ===================================================================== *)
(** ** Dialogue acts (dialogue_acts.js) *)
(* ===================================================================== *)

(** The keys of [Z_FUNCTIONS], in their order. *)
Inductive zfunction : Type :=
| getStatus
| resetVib.

(** [prompt.match(Z_FUNCTIONS[key].pattern)]: [/^\/status$/i] and
    [/^\/reset\s+vibration$/i].  The word after the run of white space
    does not start with white space, so the run is the longest one. *)
Definition pattern_matches (z : zfunction) (prompt : string) : bool :=
  match z with
  | getStatus => eqb_nocase "/status" prompt
  | resetVib =>
      match strip_nocase "/reset" prompt with
      | Some r =>
          match white_space r with
          | Some r' =>
              eqb_nocase "vibration" (skip_white_space (String.length r') r')
          | None => false
          end
      | None => false
      end
  end.

(** The branch of [execute_logos_inference] that writes the response; the
    text it builds from [KNOWLEDGE] is not part of the model. *)
Inductive topic : Type :=
| TopicProtocol
| TopicVibration
| TopicEconomy
| TopicHalt
| TopicGuideline.

(** What the dialogue handler writes to the console. *)
Inductive dialogue_message : Type :=
| MsgPrompt (prompt : string)
| MsgDialogueHalted
| MsgZFunction (z : zfunction)
| MsgLogosBlocked
| MsgInferring
| MsgResponse (alarm : bool) (t : topic).

Section Dialogue.

(** [Number.prototype.toFixed], of the host. *)
Variable toFixed : number → nat → string.

Definition mobius_transform_query (prompt : string) (state : SystemState)
  : string :=
  let haltStatus :=
    if isHalted state then "強制停止状態" else "稼働状態" in
  "[状態: " +:+ haltStatus +:+ ", V:"
  +:+ toFixed (value (vibration_level state)) 1 +:+ "] " +:+ prompt.

Definition execute_logos_inference (transformed_query : string) : topic :=
  if includes "プロトコル" transformed_query
     || includes "定義" transformed_query then TopicProtocol
  else if includes "V" transformed_query
          || includes "Vibration" transformed_query
          || includes "活動量" transformed_query then TopicVibration
  else if includes "経済" transformed_query
          || includes "残高" transformed_query
          || includes "通貨" transformed_query then TopicEconomy
  else if includes "強制停止状態" transformed_query
          || includes "HALT" transformed_query then TopicHalt
  else TopicGuideline.

(** The response with or without the alarm in front of it. *)
Definition mobius_transform_response (raw_response : topic)
    (state : SystemState) : bool * topic :=
  if (value (vibration_level state)
      >=? VIBRATION_LIMIT * Finite (9 # 10))%js
  then (true, raw_response)
  else (false, raw_response).

Definition callInternalLogos (prompt : string) (w : World)
  : (bool * topic) * World :=
  let state := getCurrentState w in
  let t_query := mobius_transform_query prompt state in
  let raw_response := execute_logos_inference t_query in
  let final_response := mobius_transform_response raw_response state in
  let w := addVibration (Finite (1 # 2)) w in
  (final_response, w).

(** [Z_FUNCTIONS[key].execute]: the status is read, the gauge is reset. *)
Definition execute (z : zfunction) (now : number) (w : World) : World :=
  match z with
  | getStatus => w
  | resetVib => resetVibration now w
  end.

(** [prompt] is the trimmed value of the input field, [None] when the
    field or the button is missing; [now] is the result of [Date.now()].
    The lines the handler writes are returned with the world, the latest
    first. *)
Definition handleDialogueAct (prompt : option string) (now : number)
    (w : World) : World * list (dialogue_message * string) :=
  match prompt with
  | None => (w, [])
  | Some prompt =>
      if String.eqb prompt "" then (w, [])
      else
        let out := [(MsgPrompt prompt, "user-message")] in
        let state := getCurrentState w in
        if isHalted state then
          (w, (MsgDialogueHalted, "error-message") :: out)
        else if pattern_matches getStatus prompt then
          (execute getStatus now w,
           (MsgZFunction getStatus, "internal-message") :: out)
        else if pattern_matches resetVib prompt then
          (execute resetVib now w,
           (MsgZFunction resetVib, "internal-message") :: out)
        else if (value (vibration_level state) >=? VIBRATION_LIMIT)%js then
          (w, (MsgLogosBlocked, "error-message") :: out)
        else
          let out := (MsgInferring, "system-message") :: out in
          let (internalResponse, w) := callInternalLogos prompt w in
          (w, (MsgResponse (fst internalResponse) (snd internalResponse),
               "ai-message") :: out)
  end.

End Dialogue.

(** *** The store against the local state *)

(** The patches of the store applied to a state, the oldest first (the
    store keeps the latest first). *)
Definition replay (patches : list updateData) (s : SystemState)
  : SystemState :=
  fold_right (fun u s => merge s u) s patches.

Definition is_decay (a : act) : bool :=
  match a with DecayVibration _ => true | _ => false end.

Definition is_restart (a : act) : bool :=
  match a with Restart => true | _ => false end.

(** The three acts [validateAct] guards. *)
Definition is_currency_act (a : act) : bool :=
  match a with
  | Transfer _ _ _ _ | MintCurrency _ _ _ | ExchangeCurrency _ _ _ _ => true
  | _ => false
  end.

(** What identifies an account: its id and its name. *)
Definition identity (acc : account) : string * string := (id acc, name acc).

(** Every supply level is a number in [0, 100]. *)
Definition supplies_in_bounds (s : SystemState) : Prop :=
  ∀ (k : string) (e : supply),
    infrastructure s !! k = Some e →
    (Finite 0 <=? supply_value e)%js = true
    ∧ (supply_value e <=? Finite 100)%js = true.

(* ===================================================================== *)
(** ** Arithmetic of JavaScript numbers *)
(* ===================================================================== *)

Lemma Qle_bool_false (a b : Q) : Qle_bool a b = false ↔ (b < a)%Q.
Proof.
  rewrite <- not_true_iff_false, Qle_bool_iff. split.
  - apply Qnot_le_lt.
  - apply Qlt_not_le.
Qed.

Lemma Qeq_bool_false (a b : Q) : Qeq_bool a b = false ↔ ¬ (a == b)%Q.
Proof. by rewrite <- not_true_iff_false, Qeq_bool_iff. Qed.

(** Turn the boolean tests on rationals of the context and the goal into
    propositions, by cases. *)
Ltac q_cases :=
  repeat match goal with
    | H : context [Qle_bool ?a ?b] |- _ =>
        let E := fresh "E" in
        destruct (Qle_bool a b) eqn:E;
        [apply Qle_bool_iff in E | apply Qle_bool_false in E]
    | |- context [Qle_bool ?a ?b] =>
        let E := fresh "E" in
        destruct (Qle_bool a b) eqn:E;
        [apply Qle_bool_iff in E | apply Qle_bool_false in E]
    | H : context [Qeq_bool ?a ?b] |- _ =>
        let E := fresh "E" in
        destruct (Qeq_bool a b) eqn:E;
        [apply Qeq_bool_iff in E | apply Qeq_bool_false in E]
    | |- context [Qeq_bool ?a ?b] =>
        let E := fresh "E" in
        destruct (Qeq_bool a b) eqn:E;
        [apply Qeq_bool_iff in E | apply Qeq_bool_false in E]
    | H : context [(?a ?= ?b)%Q] |- _ => destruct (Qcompare_spec a b)
    | |- context [(?a ?= ?b)%Q] => destruct (Qcompare_spec a b)
    end.

Ltac js_unfold :=
  unfold JS.geb, JS.sub, JS.min, JS.max, JS.or0, JS.ToNumber,
    JS.truthy, VIBRATION_LIMIT in *.

(** Decide a goal on numbers whose shape is known: compute, split the
    boolean tests, and leave the rationals to [lra]. *)
Ltac js_solve :=
  js_unfold; cbn in *; repeat (progress (q_cases; cbn in * ));
  repeat split;
  try discriminate; try contradiction; try reflexivity; try lra.

Lemma ltb_not_geb (x y : number) : (x <? y)%js = true → (x >=? y)%js = false.
Proof. destruct x, y; js_solve. Qed.

Lemma min_in_range (v a : number) :
  in_range v → (Finite 0 <=? a)%js = true →
  in_range (JS.min (v + a) (VIBRATION_LIMIT * Finite 2))%js.
Proof. unfold in_range. intros [H0 H1] Ha. destruct v, a; js_solve. Qed.

Lemma min_clamps (s : number) :
  (VIBRATION_LIMIT * Finite 2 <? s)%js = true →
  JS.min s (VIBRATION_LIMIT * Finite 2)%js = (VIBRATION_LIMIT * Finite 2)%js.
Proof. destruct s; js_solve. Qed.

Lemma max_in_range (v e : number) :
  in_range v → (e >=? Finite 1)%js = true →
  in_range (JS.max (Finite 0) (v - e * Finite (1 # 2)))%js.
Proof. unfold in_range. intros [H0 H1] He. destruct v, e; js_solve. Qed.

Lemma max_clamps (x : number) :
  (x <? Finite 0)%js = true → JS.max (Finite 0) x = Finite 0.
Proof. destruct x; js_solve. Qed.

(* ===================================================================== *)
(** ** The vibration gauge *)
(* ===================================================================== *)

Lemma addVibration_value (amount : number) (w : World) :
  vibration_value (addVibration amount w)
  = JS.min (vibration_value w + amount)%js (VIBRATION_LIMIT * Finite 2)%js.
Proof. reflexivity. Qed.

Lemma decayVibration_value (now : number) (w : World) :
  vibration_value (decayVibration now w)
  = if (timeElapsed now w >=? Finite 1)%js then decayed now w
    else vibration_value w.
Proof.
  unfold decayVibration, decayed, timeElapsed, vibration_value.
  destruct (_ >=? Finite 1)%js; [|reflexivity].
  by destruct (JS.abs _ >=? Finite 1)%js.
Qed.

Lemma gauge_step_in_range (o : gauge_op) (w : World) :
  charges_nonneg o → in_range (vibration_value w) →
  in_range (vibration_value (gauge_step w o)).
Proof.
  intros Ho Hw. destruct o as [amount | now | now]; simpl.
  - rewrite addVibration_value. by apply min_in_range.
  - rewrite decayVibration_value.
    destruct (timeElapsed now w >=? Finite 1)%js eqn:He; [|done].
    by apply max_in_range.
  - unfold in_range. by cbn.
Qed.

Lemma gauge_run_in_range (ops : list gauge_op) (w : World) :
  Forall charges_nonneg ops → in_range (vibration_value w) →
  in_range (vibration_value (gauge_run ops w)).
Proof.
  unfold gauge_run. intros Hops. revert w.
  induction Hops as [| o ops Ho _ IH]; intros w Hw; simpl; [done|].
  apply IH. by apply gauge_step_in_range.
Qed.

(** C7 (as amended): starting from a value in [0, 2 * VIBRATION_LIMIT], the
    gauge stays in that range under every sequence of add, decay and reset
    operations whose adds charge amounts that are not negative; an add
    whose sum exceeds 2 * VIBRATION_LIMIT sets the value to exactly
    2 * VIBRATION_LIMIT, and a decay whose difference is below zero sets it
    to exactly zero. *)
Theorem gauge_stays_in_range :
  (∀ (ops : list gauge_op) (w : World),
      Forall charges_nonneg ops → in_range (vibration_value w) →
      in_range (vibration_value (gauge_run ops w)))
  ∧ (∀ (x : number) (w : World),
        (VIBRATION_LIMIT * Finite 2 <? vibration_value w + x)%js = true →
        vibration_value (addVibration x w) = (VIBRATION_LIMIT * Finite 2)%js)
  ∧ (∀ (now : number) (w : World),
        (timeElapsed now w >=? Finite 1)%js = true →
        (vibration_value w - timeElapsed now w * Finite (1 # 2)
         <? Finite 0)%js = true →
        vibration_value (decayVibration now w) = Finite 0).
Proof.
  split; [|split].
  - apply gauge_run_in_range.
  - intros x w H. rewrite addVibration_value. by apply min_clamps.
  - intros now w He H. rewrite decayVibration_value, He.
    by apply max_clamps.
Qed.

Lemma gauge_stays_in_range_witness :
  in_range
    (vibration_value
       (gauge_run
          [Add (Finite 199); Add (Finite 5); Decay (Finite 4000);
           Reset (Finite 5000); Add (Finite (1 # 2))]
          (initialWorld (Finite 0)))).
Proof.
  apply (proj1 gauge_stays_in_range).
  - repeat constructor.
  - split; reflexivity.
Defined.

(** C7 (as stated) fails: [addVibration] takes any number, and adding -1 to
    a gauge at 0 leaves -1, below the range. *)
Lemma gauge_add_negative_leaves_range :
  in_range (vibration_value (initialWorld (Finite 0)))
  ∧ vibration_value (gauge_run [Add (Finite (-1))] (initialWorld (Finite 0)))
    = Finite (-1)
  ∧ ¬ in_range
      (vibration_value
         (gauge_run [Add (Finite (-1))] (initialWorld (Finite 0)))).
Proof.
  split; [by split|]. split; [reflexivity|].
  intros [H _]. vm_compute in H. discriminate.
Qed.

(** C8: [decayVibration] changes nothing while less than a second elapsed;
    after a second or more the local value is max(0, value - elapsed * 0.5)
    and [last_decay] is [now]; the patch goes to the store exactly when the
    value moved by 1 or more, and otherwise only the local state changes. *)
Theorem decayVibration_throttled (now : number) (w : World) :
  let w' := decayVibration now w in
  let newLevel := {| value := decayed now w; last_decay := now |} in
  ((timeElapsed now w <? Finite 1)%js = true → w' = w)
  ∧ ((timeElapsed now w >=? Finite 1)%js = true →
       currentState w' = merge (currentState w) (set_vibration_level newLevel)
       ∧ vibration_level (currentState w') = newLevel
       ∧ console w' = console w
       ∧ ((JS.abs (decayed now w - vibration_value w) >=? Finite 1)%js = true →
            firestore w' = set_vibration_level newLevel :: firestore w)
       ∧ ((JS.abs (decayed now w - vibration_value w) >=? Finite 1)%js = false →
            firestore w' = firestore w)).
Proof.
  cbv zeta.
  unfold decayVibration, decayed, timeElapsed, vibration_value. split.
  - intros H. by rewrite (ltb_not_geb _ _ H).
  - intros ->.
    destruct (JS.abs _ >=? Finite 1)%js; repeat split; done.
Qed.

(** C6: halting a halted system and restarting a running one change
    neither the state nor the store; of two halts in a row from a running
    system the first sets [isHalted] and charges 5, the second does
    nothing. *)
Theorem halt_restart_idempotent (w : World) :
  (isHalted (currentState w) = true →
     currentState (actForcedHalt w) = currentState w
     ∧ firestore (actForcedHalt w) = firestore w)
  ∧ (isHalted (currentState w) = false →
       currentState (actRestart w) = currentState w
       ∧ firestore (actRestart w) = firestore w)
  ∧ (isHalted (currentState w) = false →
       let w1 := actForcedHalt w in
       let w2 := actForcedHalt w1 in
       isHalted (currentState w1) = true
       ∧ vibration_value w1
         = JS.min (vibration_value w + Finite 5)%js
             (VIBRATION_LIMIT * Finite 2)%js
       ∧ firestore w1
         = [ set_vibration_level (vibration_level (currentState w1));
             set_isHalted true ] ++ firestore w
       ∧ currentState w2 = currentState w1
       ∧ firestore w2 = firestore w1).
Proof.
  unfold actForcedHalt, actRestart, getCurrentState.
  split; [|split]; intros H; rewrite ?H; done.
Qed.

(** C10: [actAdjustSupply] tests the amount only.  An amount that is a
    number in [0, 100] replaces the entry the type selects and charges 1,
    whatever [isHalted] and the gauge are; any other amount changes
    nothing. *)
Theorem actAdjustSupply_gate (infrastructureType : string)
    (amount now : number) (w : World) :
  let w' := actAdjustSupply infrastructureType amount now w in
  let targetKey :=
    if String.eqb infrastructureType "ENERGY" then "energy_supply"
    else "net_stability" in
  let in_bounds :=
    negb (JS.isNaN amount) && (Finite 0 <=? amount)%js
    && (amount <=? Finite 100)%js in
  (in_bounds = true →
     infrastructure (currentState w')
     = <[targetKey := {| supply_value := amount; last_change := now |}]>
         (infrastructure (currentState w))
     ∧ vibration_value w'
       = JS.min (vibration_value w + Finite 1)%js
           (VIBRATION_LIMIT * Finite 2)%js
     ∧ isHalted (currentState w') = isHalted (currentState w)
     ∧ accounts (currentState w') = accounts (currentState w)
     ∧ firestore w'
       = [ set_vibration_level (vibration_level (currentState w'));
           set_infrastructure (infrastructure (currentState w')) ]
         ++ firestore w)
  ∧ (in_bounds = false →
       currentState w' = currentState w
       ∧ firestore w' = firestore w
       ∧ console w' = (MsgInfraError, "error-message") :: console w).
Proof.
  cbv zeta. unfold actAdjustSupply.
  destruct (JS.isNaN amount || (amount <? Finite 0)%js
            || (Finite 100 <? amount)%js) eqn:Hc.
  - split; [|done]. intros H. exfalso. destruct amount; js_solve.
  - split; [|intros H; exfalso; destruct amount; js_solve].
    intros _. repeat split; done.
Qed.

(** A halted system whose gauge is at 150, above the limit: the supply is
    adjusted all the same. *)
Lemma actAdjustSupply_gate_witness :
  let w :=
    {| currentState :=
         {| isHalted := true;
            vibration_level :=
              {| value := Finite 150; last_decay := Finite 0 |};
            currency_rates := ∅; accounts := []; infrastructure := ∅ |};
       firestore := []; console := [] |} in
  let w' := actAdjustSupply "ENERGY" (Finite 40) (Finite 7000) w in
  infrastructure (currentState w')
  = {[ "energy_supply" :=
         {| supply_value := Finite 40; last_change := Finite 7000 |} ]}
  ∧ vibration_value w' = Finite 151.
Proof.
  cbv zeta.
  destruct (proj1 (actAdjustSupply_gate "ENERGY" (Finite 40) (Finite 7000)
                     {| currentState :=
                          {| isHalted := true;
                             vibration_level :=
                               {| value := Finite 150;
                                  last_decay := Finite 0 |};
                             currency_rates := ∅; accounts := [];
                             infrastructure := ∅ |};
                        firestore := []; console := [] |})
              eq_refl) as (Hi & Hv & _).
  split; [exact Hi | exact Hv].
Defined.

(* ===================================================================== *)
(** ** The validator *)
(* ===================================================================== *)

Lemma has_id_true (x : option string) (acc : account) :
  has_id x acc = true ↔ Some (id acc) = x.
Proof.
  unfold has_id, JS.str_eq. destruct x as [x|]; [|split; discriminate].
  rewrite String.eqb_eq. split; congruence.
Qed.

Lemma find_has_id_is_Some (x : option string) (l : list account) :
  is_Some (find (has_id x) l) ↔ Exists (fun acc => Some (id acc) = x) l.
Proof.
  induction l as [| acc l IH]; simpl.
  - split; [intros [? [=]] | inversion 1].
  - destruct (has_id x acc) eqn:Hx.
    + split; [|by eauto]. intros _. left. by apply has_id_true.
    + rewrite IH. split; [by right|]. inversion 1 as [? ? Hacc | ]; [|done].
      apply has_id_true in Hacc. congruence.
Qed.

Lemma known_currency_true (CURRENCIES : list currency_def) (c : string) :
  known_currency CURRENCIES c = true ↔ c ∈ code <$> CURRENCIES.
Proof.
  unfold known_currency. rewrite existsb_exists, list_elem_of_fmap.
  split.
  - intros (d & Hd & Heq). apply String.eqb_eq in Heq.
    exists d. split; [done|]. by apply list_elem_of_In.
  - intros (d & -> & Hd). exists d. split; [by apply list_elem_of_In|].
    apply String.eqb_refl.
Qed.

Lemma truthy_str_true (x : option string) :
  JS.truthy_str x = true ↔ x ≠ None ∧ x ≠ Some "".
Proof.
  destruct x as [x|]; simpl; [|split; [discriminate | by intros [? _]]].
  rewrite negb_true_iff. split.
  - intros H. split; [done|]. intros [= ->]. by rewrite String.eqb_refl in H.
  - intros [_ H]. apply String.eqb_neq. congruence.
Qed.

Lemma unknown_currency_decide (CURRENCIES : list currency_def) (c : string) :
  bool_decide (c ∉ code <$> CURRENCIES) = negb (known_currency CURRENCIES c).
Proof.
  destruct (known_currency CURRENCIES c) eqn:H; simpl.
  - apply bool_decide_eq_false. intros Hn. apply Hn.
    by apply known_currency_true.
  - apply bool_decide_eq_true. intros Hin.
    apply known_currency_true in Hin. congruence.
Qed.

Lemma no_account_decide (x : option string) (l : list account) :
  bool_decide (¬ Exists (fun acc => Some (id acc) = x) l)
  = negb (bool_decide (is_Some (find (has_id x) l))).
Proof.
  rewrite bool_decide_not. f_equal. apply bool_decide_ext.
  symmetry. apply find_has_id_is_Some.
Qed.

Lemma given_decide (x : option string) :
  bool_decide (x ≠ None ∧ x ≠ Some "") = JS.truthy_str x.
Proof.
  destruct (JS.truthy_str x) eqn:H.
  - apply bool_decide_eq_true. by apply truthy_str_true.
  - apply bool_decide_eq_false. intros Hx. apply truthy_str_true in Hx.
    congruence.
Qed.

(** [validateAct] is the first failing check of [checks]. *)
Lemma validateAct_first_failure (CURRENCIES : list currency_def)
    (senderId recipientId : option string) (amount : number)
    (currency : string) (state : SystemState) (isMint : bool) :
  validateAct CURRENCIES senderId recipientId amount currency state isMint
  = match
      first_failure
        (checks CURRENCIES senderId recipientId amount currency state isMint)
    with
    | Some e => Error e
    | None =>
        Valid {| v_sender := find (has_id senderId) (accounts state);
                 v_recipient := find (has_id recipientId) (accounts state);
                 v_amount := amount; v_currency := currency |}
    end.
Proof.
  unfold validateAct, first_failure, checks, balance_of.
  cbn [find fst snd].
  rewrite unknown_currency_decide, !no_account_decide, given_decide.
  repeat match goal with
    | |- context [if ?b then Error _ else _] => destruct b; [done|]
    end.
  done.
Qed.

Lemma first_failure_earliest (l : list (bool * error)) (i : nat) (e : error) :
  l !! i = Some (true, e) →
  (∀ (j : nat) (b : bool) (e' : error),
      (j < i)%nat → l !! j = Some (b, e') → b = false) →
  first_failure l = Some e.
Proof.
  unfold first_failure. revert i.
  induction l as [| [b0 e0] l IH]; intros i Hi Hlt; [done|].
  destruct i as [| i]; simpl in *.
  - by injection Hi as -> ->.
  - rewrite (Hlt 0%nat b0 e0); [|lia|done].
    apply (IH i Hi). intros j b e' Hj Hl.
    apply (Hlt (S j) b e'); [lia|done].
Qed.

Lemma first_failure_none (l : list (bool * error)) :
  (∀ (b : bool) (e : error), (b, e) ∈ l → b = false) →
  first_failure l = None.
Proof.
  unfold first_failure. induction l as [| [b0 e0] l IH]; intros H; [done|].
  simpl. rewrite (H b0 e0); [|by left].
  apply IH. intros b e Hin. apply (H b e). by right.
Qed.

(** C3: [validateAct] runs the seven checks in the order of [checks] and
    returns the error of the first one that fails: a failing check whose
    predecessors all pass decides the result, whatever the later checks
    say; when every check passes it returns the two accounts it found, the
    amount and the currency.  The result depends on the state only: the
    function returns no state. *)
Theorem validateAct_checks_in_order (CURRENCIES : list currency_def)
    (senderId recipientId : option string) (amount : number)
    (currency : string) (state : SystemState) (isMint : bool) :
  let cs :=
    checks CURRENCIES senderId recipientId amount currency state isMint in
  let r :=
    validateAct CURRENCIES senderId recipientId amount currency state isMint in
  (∀ (i : nat) (e : error),
      cs !! i = Some (true, e) →
      (∀ (j : nat) (b : bool) (e' : error),
          (j < i)%nat → cs !! j = Some (b, e') → b = false) →
      r = Error e)
  ∧ ((∀ (b : bool) (e : error), (b, e) ∈ cs → b = false) →
       r = Valid {| v_sender := find (has_id senderId) (accounts state);
                    v_recipient := find (has_id recipientId) (accounts state);
                    v_amount := amount; v_currency := currency |}).
Proof.
  cbv zeta. rewrite validateAct_first_failure. split.
  - intros i e Hi Hlt. by rewrite (first_failure_earliest _ i e Hi Hlt).
  - intros H. by rewrite (first_failure_none _ H).
Qed.

(** A halted system at the gauge's limit, asked to move a negative amount
    of an unknown currency between two missing accounts: five checks fail,
    and the first in order is reported. *)
Lemma validateAct_checks_in_order_witness :
  validateAct initial_currencies (Some "X") (Some "Y") (Finite (-1)) "DELTA"
    {| isHalted := true;
       vibration_level := {| value := Finite 100; last_decay := Finite 0 |};
       currency_rates := ∅; accounts := []; infrastructure := ∅ |}
    false
  = Error SystemHalted.
Proof.
  apply (proj1 (validateAct_checks_in_order initial_currencies (Some "X")
                  (Some "Y") (Finite (-1)) "DELTA" _ false) 0%nat).
  - reflexivity.
  - intros j b e' Hj. lia.
Defined.

(* ===================================================================== *)
(** ** Rejected acts *)
(* ===================================================================== *)

Lemma validateAct_rejected (CURRENCIES : list currency_def)
    (senderId recipientId : option string) (amount : number)
    (currency : string) (state : SystemState) (isMint : bool) :
  is_Some (first_failure
             (checks CURRENCIES senderId recipientId amount currency state
                isMint)) →
  ∃ e, validateAct CURRENCIES senderId recipientId amount currency state
         isMint = Error e.
Proof.
  intros [e He]. exists e. by rewrite validateAct_first_failure, He.
Qed.

Lemma validateAct_accepted (CURRENCIES : list currency_def)
    (senderId recipientId : option string) (amount : number)
    (currency : string) (state : SystemState) (isMint : bool) :
  first_failure
    (checks CURRENCIES senderId recipientId amount currency state isMint)
  = None →
  validateAct CURRENCIES senderId recipientId amount currency state isMint
  = Valid {| v_sender := find (has_id senderId) (accounts state);
             v_recipient := find (has_id recipientId) (accounts state);
             v_amount := amount; v_currency := currency |}.
Proof. intros H. by rewrite validateAct_first_failure, H. Qed.

Lemma create_invalid_decide (newId : option string) (l : list account) :
  bool_decide (newId = None ∨ newId = Some ""
               ∨ Exists (fun acc => Some (id acc) = newId) l)
  = negb (JS.truthy_str newId) || existsb (has_id newId) l.
Proof.
  apply eq_true_iff_eq.
  rewrite bool_decide_eq_true, orb_true_iff, negb_true_iff,
    <- not_true_iff_false, truthy_str_true, existsb_exists, Exists_exists.
  split.
  - intros [-> | [-> | (acc & Hin & Hacc)]].
    + left. by intros [? _].
    + left. by intros [_ ?].
    + right. exists acc. split; [by apply list_elem_of_In|].
      by apply has_id_true.
  - intros [H | (acc & Hin & Hacc)].
    + destruct newId as [i|]; [|by left].
      destruct (decide (i = "")) as [-> | Hne]; [by right; left|].
      exfalso. apply H. split; congruence.
    + right; right. exists acc. split; [by apply list_elem_of_In|].
      by apply has_id_true.
Qed.

Lemma rejected_perform (CURRENCIES : list currency_def) (a : act)
    (w : World) :
  rejected CURRENCIES a (currentState w) = true →
  currentState (perform CURRENCIES a w) = currentState w
  ∧ firestore (perform CURRENCIES a w) = firestore w.
Proof.
  intros H.
  destruct a; simpl in H; simpl.
  - unfold actForcedHalt, getCurrentState. by rewrite H.
  - unfold actRestart, getCurrentState. by rewrite H.
  - unfold handleCreateAccountAct, getCurrentState.
    rewrite create_invalid_decide in H.
    destruct (negb (JS.truthy_str newId) || _); [done|].
    simpl in H. by rewrite H.
  - apply bool_decide_eq_true in H.
    destruct (validateAct_rejected _ _ _ _ _ _ _ H) as [e He].
    unfold actTransfer, getCurrentState. by rewrite He.
  - apply bool_decide_eq_true in H.
    destruct (validateAct_rejected _ _ _ _ _ _ _ H) as [e He].
    unfold actMintCurrency, getCurrentState. by rewrite He.
  - unfold actExchangeCurrency, getCurrentState.
    destruct (validateAct _ _ _ _ _ _ _) as [e | v] eqn:Hv; [done|].
    apply orb_true_iff in H as [H | H].
    + apply bool_decide_eq_true in H.
      destruct (validateAct_rejected _ _ _ _ _ _ _ H) as [e He]. congruence.
    + apply bool_decide_eq_true in H. subst.
      by rewrite String.eqb_refl.
  - unfold actAdjustSupply.
    destruct (JS.isNaN amount || _ || _) eqn:Hc; [done|].
    exfalso. destruct amount; js_solve.
  - done.
  - done.
Qed.


(** An act whose precondition holds does commit: the last patch it hands to
    the store is the charged gauge. *)
Lemma accepted_act_commits (CURRENCIES : list currency_def) (a : act)
    (w : World) :
  rejected CURRENCIES a (currentState w) = false →
  (∀ now : number, a ≠ DecayVibration now) →
  ∃ (u : updateData) (rest : list updateData),
    firestore (perform CURRENCIES a w) = u :: rest
    ∧ upd_vibration_level u
      = Some (vibration_level (currentState (perform CURRENCIES a w))).
Proof.
  intros H Hd. destruct a; simpl in H; simpl.
  - unfold actForcedHalt, getCurrentState. rewrite H. by eexists _, _.
  - unfold actRestart, getCurrentState. rewrite H. by eexists _, _.
  - unfold handleCreateAccountAct, getCurrentState.
    rewrite create_invalid_decide in H.
    apply orb_false_iff in H as [-> ->]. by eexists _, _.
  - apply bool_decide_eq_false in H.
    unfold actTransfer, getCurrentState. rewrite validateAct_accepted.
    + by eexists _, _.
    + destruct (first_failure _); [|done]. exfalso. apply H. eauto.
  - apply bool_decide_eq_false in H.
    unfold actMintCurrency, getCurrentState. rewrite validateAct_accepted.
    + by eexists _, _.
    + destruct (first_failure _); [|done]. exfalso. apply H. eauto.
  - apply orb_false_iff in H as [H1 H2].
    apply bool_decide_eq_false in H1, H2.
    unfold actExchangeCurrency, getCurrentState. rewrite validateAct_accepted.
    + apply String.eqb_neq in H2. rewrite H2. by eexists _, _.
    + destruct (first_failure _); [|done]. exfalso. apply H1. eauto.
  - unfold actAdjustSupply.
    destruct (JS.isNaN amount || _ || _) eqn:Hc.
    + exfalso. destruct amount; js_solve.
    + by eexists _, _.
  - by destruct (Hd now).
  - by eexists _, _.
Qed.

(** C2: an act whose precondition fails leaves the local state as it was,
    the gauge included, and hands no patch to the store. *)
Theorem rejected_act_changes_nothing (CURRENCIES : list currency_def)
    (a : act) (w : World) :
  rejected CURRENCIES a (currentState w) = true →
  currentState (perform CURRENCIES a w) = currentState w
  ∧ vibration_value (perform CURRENCIES a w) = vibration_value w
  ∧ firestore (perform CURRENCIES a w) = firestore w.
Proof.
  intros H. destruct (rejected_perform CURRENCIES a w H) as [Hs Hf].
  unfold vibration_value. by rewrite Hs, Hf.
Qed.

(** The transfer the specification gives as a scenario: 2000 ALPHA from an
    account that holds 1000. *)
Lemma rejected_act_changes_nothing_witness :
  let a := Transfer (Some "CORE_BANK_A") (Some "USER_AUDIT_B") (Finite 2000)
             "ALPHA" in
  let w := initialWorld (Finite 0) in
  currentState (perform initial_currencies a w) = currentState w
  ∧ vibration_value (perform initial_currencies a w) = vibration_value w
  ∧ firestore (perform initial_currencies a w) = firestore w.
Proof.
  apply (rejected_act_changes_nothing initial_currencies). reflexivity.
Defined.

(* ===================================================================== *)
(** ** Account creation *)
(* ===================================================================== *)

(** C9: [handleCreateAccountAct] changes nothing when the id is missing or
    empty, when an account has the id, or when the system is halted;
    otherwise it appends one account with that id whose balance is zero in
    every configured currency, and charges 1.  The new account holds the
    three codes ALPHA, BETA and GAMMA: the configured codes are taken to be
    among them. *)
Theorem handleCreateAccountAct_spec (CURRENCIES : list currency_def)
    (newId newName : option string) (w : World) :
  (∀ c : string, c ∈ code <$> CURRENCIES → c ∈ ["ALPHA"; "BETA"; "GAMMA"]) →
  let s := currentState w in
  let w' := handleCreateAccountAct newId newName w in
  let invalid :=
    newId = None ∨ newId = Some ""
    ∨ Exists (fun acc => Some (id acc) = newId) (accounts s)
    ∨ isHalted s = true in
  (invalid → currentState w' = s ∧ firestore w' = firestore w)
  ∧ (¬ invalid →
       ∃ (i : string) (acc : account),
         newId = Some i ∧ id acc = i
         ∧ accounts (currentState w') = accounts s ++ [acc]
         ∧ (∀ c : string, c ∈ code <$> CURRENCIES →
              prop acc c = Some (Finite 0))
         ∧ vibration_value w'
           = JS.min (vibration_value w + Finite 1)%js
               (VIBRATION_LIMIT * Finite 2)%js
         ∧ isHalted (currentState w') = isHalted s
         ∧ currency_rates (currentState w') = currency_rates s
         ∧ infrastructure (currentState w') = infrastructure s).
Proof.
  intros HC. cbv zeta.
  unfold handleCreateAccountAct, getCurrentState.
  rewrite <- create_invalid_decide.
  destruct (bool_decide _) eqn:Hd.
  - split; [done|]. intros Hn. exfalso. apply Hn.
    apply bool_decide_eq_true in Hd. tauto.
  - apply bool_decide_eq_false in Hd.
    destruct (isHalted (currentState w)) eqn:Hh.
    + split; [done|]. intros Hn. exfalso. apply Hn. tauto.
    + split; [intros Hi; exfalso; apply Hd; intuition congruence|].
      intros _. destruct newId as [i|]; [|exfalso; apply Hd; by left].
      eexists i, _. repeat split; try done.
      intros c Hc. apply HC in Hc. unfold prop. simpl.
      set_unfold in Hc. destruct Hc as [-> | [-> | [-> | []]]]; reflexivity.
Qed.

Lemma handleCreateAccountAct_spec_witness :
  (∀ c : string,
      c ∈ code <$> initial_currencies → c ∈ ["ALPHA"; "BETA"; "GAMMA"])
  ∧ ∃ (acc : account),
      id acc = "AUDIT_C"
      ∧ accounts
          (currentState
             (handleCreateAccountAct (Some "AUDIT_C") None
                (initialWorld (Finite 0))))
        = accounts (initialState (Finite 0)) ++ [acc]
      ∧ (∀ c : string, c ∈ code <$> initial_currencies →
           prop acc c = Some (Finite 0))
      ∧ vibration_value
          (handleCreateAccountAct (Some "AUDIT_C") None
             (initialWorld (Finite 0)))
        = Finite 1.
Proof.
  split; [by intros c H|].
  destruct (proj2 (handleCreateAccountAct_spec initial_currencies
                     (Some "AUDIT_C") None (initialWorld (Finite 0))
                     (fun c H => H)))
    as (i & acc & Hi & Hid & Hacc & Hzero & Hv & _).
  - vm_compute. intros [H | [H | [H | H]]]; try discriminate.
    repeat match goal with
      | H : Exists _ _ |- _ => inversion H; clear H; subst
      end; discriminate.
  - exists acc. injection Hi as <-. repeat split; try done.
Defined.

(* ===================================================================== *)
(** ** Transfer and exchange *)
(* ===================================================================== *)

Lemma lookup_map {A B : Type} (f : A → B) (l : list A) (k : nat) :
  map f l !! k = f <$> l !! k.
Proof.
  revert k. induction l as [| x l IH]; intros [| k]; simpl; done.
Qed.

Lemma prop_with_prop (acc : account) (c c' : string) (v : number) :
  prop (with_prop acc c v) c'
  = if decide (c = c') then Some v else prop acc c'.
Proof. unfold prop, with_prop. simpl. apply lookup_insert. Qed.

(** What an accepted transfer does to each account: the accounts with the
    sender's id are debited, the other accounts with the recipient's id
    are credited, the rest are left as they are. *)
Lemma actTransfer_accounts (CURRENCIES : list currency_def)
    (senderId recipientId : option string) (amount : number)
    (currency : string) (w : World) (k : nat) (acc : account) :
  rejected CURRENCIES (Transfer senderId recipientId amount currency)
    (currentState w) = false →
  accounts (currentState w) !! k = Some acc →
  ∃ acc' : account,
    accounts
      (currentState
         (actTransfer CURRENCIES senderId recipientId amount currency w)) !! k
    = Some acc'
    ∧ id acc' = id acc
    ∧ (∀ c : string, c ≠ currency → prop acc' c = prop acc c)
    ∧ prop acc' currency
      = if has_id senderId acc then
          Some (JS.ToNumber (prop acc currency) - amount)%js
        else if has_id recipientId acc then
          Some (JS.or0 (prop acc currency) + amount)%js
        else prop acc currency.
Proof.
  simpl. intros H Hk. apply bool_decide_eq_false in H.
  unfold actTransfer, getCurrentState.
  rewrite validateAct_accepted;
    [|destruct (first_failure _); [exfalso; apply H; eauto | done]].
  simpl. rewrite lookup_map, Hk. simpl. eexists. split; [reflexivity|].
  destruct (has_id senderId acc); [|destruct (has_id recipientId acc)];
    repeat split; try done;
    try (intros c Hc; rewrite prop_with_prop; by rewrite decide_False);
    rewrite prop_with_prop; by rewrite decide_True.
Qed.

(** A transfer whose sender and recipient are the same account only debits
    it: the sender's branch of the update is taken and the recipient's is
    never reached. *)
Lemma actTransfer_self_only_debits (CURRENCIES : list currency_def)
    (x : option string) (amount : number) (currency : string) (w : World) :
  rejected CURRENCIES (Transfer x x amount currency) (currentState w) = false →
  accounts (currentState (actTransfer CURRENCIES x x amount currency w))
  = map (fun acc =>
           if has_id x acc then
             with_prop acc currency
               (JS.ToNumber (prop acc currency) - amount)%js
           else acc)
      (accounts (currentState w)).
Proof.
  simpl. intros H. apply bool_decide_eq_false in H.
  unfold actTransfer, getCurrentState.
  rewrite validateAct_accepted.
  - simpl. apply map_ext. intros acc. by destruct (has_id x acc).
  - destruct (first_failure _); [|done]. exfalso. apply H. eauto.
Qed.

(** C1 fails when sender and recipient are the same account: in the
    initial state a transfer of 10 ALPHA from CORE_BANK_A to itself passes
    validation, takes 10 from the account and credits nothing, and the
    supply of ALPHA falls from 1050 to 1040.  The same transfer to
    USER_AUDIT_B keeps the supply. *)
Theorem actTransfer_to_self_loses_supply :
  let w := initialWorld (Finite 0) in
  let bank := Some "CORE_BANK_A" in
  let w' := actTransfer initial_currencies bank bank (Finite 10) "ALPHA" w in
  let w'' :=
    actTransfer initial_currencies bank (Some "USER_AUDIT_B") (Finite 10)
      "ALPHA" w in
  rejected initial_currencies (Transfer bank bank (Finite 10) "ALPHA")
    (currentState w) = false
  ∧ balance_of bank "ALPHA" (currentState w) = Some (Finite 1000)
  ∧ balance_of bank "ALPHA" (currentState w') = Some (Finite 990)
  ∧ total_supply "ALPHA" (currentState w) = 1050%Q
  ∧ total_supply "ALPHA" (currentState w') = 1040%Q
  ∧ total_supply "ALPHA" (currentState w'') = 1050%Q.
Proof. cbv zeta. repeat split; vm_compute; reflexivity. Qed.



(* ===================================================================== *)
(** ** No negative balance *)
(* ===================================================================== *)












Lemma fmap_id_map (f : account → account) (l : list account) :
  (∀ acc : account, id (f acc) = id acc) → id <$> map f l = id <$> l.
Proof.
  intros Hf. induction l as [| a l IH]; [done|].
  cbn. f_equal; [apply Hf | apply IH].
Qed.

Lemma lookup_three (k1 k2 k3 c : string) (v1 v2 v3 b : number) :
  ({[ k1 := v1; k2 := v2; k3 := v3 ]} : gmap string number) !! c = Some b →
  b = v1 ∨ b = v2 ∨ b = v3.
Proof.
  rewrite !lookup_insert. repeat case_decide.
  - intros Hb. left. congruence.
  - intros Hb. right; left. congruence.
  - intros [_ Hb]%lookup_singleton_Some. right; right. congruence.
Qed.













Lemma initialState_ledger_ok (now : number) : ledger_ok (initialState now).
Proof.
  repeat split.
  - unfold unique_ids. simpl. apply NoDup_cons.
    split; [by intros [=]%list_elem_of_singleton | apply NoDup_singleton].
  - intros c r. simpl. by intros [-> | [-> | ->]]%lookup_three.
  - intros acc c b Hin. simpl in Hin. unfold prop.
    apply elem_of_cons in Hin as [-> | ->%list_elem_of_singleton]; simpl;
      by intros [-> | [-> | ->]]%lookup_three.
Qed.




(* ===================================================================== *)
(** ** What no act does *)
(* ===================================================================== *)

(** Open an act up to the tests it makes. *)
Ltac act_cases :=
  unfold perform, actForcedHalt, actRestart, handleCreateAccountAct,
    actTransfer, actMintCurrency, actExchangeCurrency, actAdjustSupply,
    decayVibration, resetVibration, getCurrentState;
  repeat case_match.

Lemma perform_rates (CURRENCIES : list currency_def) (a : act) (w : World) :
  currency_rates (currentState (perform CURRENCIES a w))
  = currency_rates (currentState w).
Proof. act_cases; done. Qed.

(** X1: no sequence of acts, timer ticks and resets changes the exchange
    rates. *)
Theorem rates_never_change (CURRENCIES : list currency_def) (l : list act)
    (w : World) :
  currency_rates (currentState (run CURRENCIES l w))
  = currency_rates (currentState w).
Proof.
  unfold run. revert w. induction l as [| a l IH]; intros w; simpl; [done|].
  by rewrite IH, perform_rates.
Qed.

Lemma identity_map (f : account → account) (l : list account) :
  (∀ acc : account, identity (f acc) = identity acc) →
  identity <$> map f l = identity <$> l.
Proof.
  intros Hf. induction l as [| a l IH]; [done|].
  cbn. f_equal; [apply Hf | apply IH].
Qed.

Lemma perform_identities (CURRENCIES : list currency_def) (a : act)
    (w : World) :
  identity <$> accounts (currentState w)
  `prefix_of` identity <$> accounts (currentState (perform CURRENCIES a w)).
Proof.
  act_cases; simpl; try done;
    try (rewrite identity_map; [done | intros acc; by repeat case_match]).
  all: rewrite fmap_app; by apply prefix_app_r.
Qed.

(** X2: the accounts are append-only.  After any sequence of acts the
    accounts the system started with are still there, in their order and
    with their ids and names; new accounts come after them. *)
Theorem accounts_append_only (CURRENCIES : list currency_def) (l : list act)
    (w : World) :
  identity <$> accounts (currentState w)
  `prefix_of` identity <$> accounts (currentState (run CURRENCIES l w)).
Proof.
  unfold run. revert w. induction l as [| a l IH]; intros w; simpl; [done|].
  etrans; [apply (perform_identities CURRENCIES a) | apply IH].
Qed.

Lemma replay_app (new2 new1 : list updateData) (s : SystemState) :
  replay (new2 ++ new1) s = replay new2 (replay new1 s).
Proof. unfold replay. by rewrite foldr_app. Qed.

Lemma perform_replay (CURRENCIES : list currency_def) (a : act) (w : World) :
  is_decay a = false →
  ∃ new : list updateData,
    firestore (perform CURRENCIES a w) = new ++ firestore w
    ∧ currentState (perform CURRENCIES a w) = replay new (currentState w).
Proof.
  intros Ha. destruct a; try discriminate; act_cases;
    first [by exists [] | by eexists [_; _] | by eexists [_]].
Qed.

(** X3: as long as no timer tick runs, the store holds what the local state
    holds: the patches the acts handed to [updateDoc], applied in order to
    the state they started from, give the local state they ended in. *)
Theorem store_replays_to_local_state (CURRENCIES : list currency_def)
    (l : list act) (w : World) :
  Forall (fun a => is_decay a = false) l →
  ∃ new : list updateData,
    firestore (run CURRENCIES l w) = new ++ firestore w
    ∧ currentState (run CURRENCIES l w) = replay new (currentState w).
Proof.
  unfold run. intros Hl. revert w.
  induction Hl as [| a l Ha _ IH]; intros w; simpl; [by exists []|].
  destruct (perform_replay CURRENCIES a w Ha) as (new1 & Hf1 & Hs1).
  destruct (IH (perform CURRENCIES a w)) as (new2 & Hf2 & Hs2).
  exists (new2 ++ new1). split.
  - by rewrite Hf2, Hf1, app_assoc.
  - by rewrite Hs2, Hs1, replay_app.
Qed.

Lemma store_replays_to_local_state_witness :
  ∃ new : list updateData,
    firestore
      (run initial_currencies
         [ MintCurrency (Some "USER_AUDIT_B") (Finite 5) "BETA";
           ForcedHalt; AdjustSupply "NET" (Finite 80) (Finite 3000);
           Restart; ResetVibration (Finite 4000) ]
         (initialWorld (Finite 0)))
    = new ++ []
    ∧ currentState
        (run initial_currencies
           [ MintCurrency (Some "USER_AUDIT_B") (Finite 5) "BETA";
             ForcedHalt; AdjustSupply "NET" (Finite 80) (Finite 3000);
             Restart; ResetVibration (Finite 4000) ]
           (initialWorld (Finite 0)))
      = replay new (initialState (Finite 0)).
Proof.
  apply (store_replays_to_local_state initial_currencies _
           (initialWorld (Finite 0))).
  repeat constructor.
Defined.

Lemma validateAct_halted (CURRENCIES : list currency_def)
    (senderId recipientId : option string) (amount : number)
    (currency : string) (state : SystemState) (isMint : bool) :
  isHalted state = true →
  validateAct CURRENCIES senderId recipientId amount currency state isMint
  = Error SystemHalted.
Proof. unfold validateAct. by intros ->. Qed.

Lemma perform_halted (CURRENCIES : list currency_def) (a : act) (w : World) :
  isHalted (currentState w) = true → is_restart a = false →
  isHalted (currentState (perform CURRENCIES a w)) = true
  ∧ accounts (currentState (perform CURRENCIES a w))
    = accounts (currentState w).
Proof.
  intros Hh Ha.
  destruct a; try discriminate; simpl;
    unfold actTransfer, actMintCurrency, actExchangeCurrency, getCurrentState;
    rewrite ?validateAct_halted by done;
    act_cases; simpl; try done; congruence.
Qed.

(** X4: a halted system stays halted, with its accounts as they are, under
    every sequence of acts that holds no restart: transfers, mints,
    exchanges and account creations are all refused. *)
Theorem halted_until_restart (CURRENCIES : list currency_def) (l : list act)
    (w : World) :
  isHalted (currentState w) = true →
  Forall (fun a => is_restart a = false) l →
  isHalted (currentState (run CURRENCIES l w)) = true
  ∧ accounts (currentState (run CURRENCIES l w)) = accounts (currentState w).
Proof.
  unfold run. intros Hh Hl. revert w Hh.
  induction Hl as [| a l Ha _ IH]; intros w Hh; simpl; [done|].
  destruct (perform_halted CURRENCIES a w Hh Ha) as [Hh' Hacc].
  destruct (IH _ Hh') as [Hh'' Hacc'']. split; [done|]. congruence.
Qed.

Lemma halted_until_restart_witness :
  isHalted
    (currentState
       (run initial_currencies
          [ Transfer (Some "CORE_BANK_A") (Some "USER_AUDIT_B") (Finite 1)
              "ALPHA";
            CreateAccount (Some "AUDIT_C") None;
            MintCurrency (Some "USER_AUDIT_B") (Finite 9) "GAMMA";
            AdjustSupply "ENERGY" (Finite 10) (Finite 2000); ForcedHalt ]
          (actForcedHalt (initialWorld (Finite 0))))) = true
  ∧ accounts
      (currentState
         (run initial_currencies
            [ Transfer (Some "CORE_BANK_A") (Some "USER_AUDIT_B") (Finite 1)
                "ALPHA";
              CreateAccount (Some "AUDIT_C") None;
              MintCurrency (Some "USER_AUDIT_B") (Finite 9) "GAMMA";
              AdjustSupply "ENERGY" (Finite 10) (Finite 2000); ForcedHalt ]
            (actForcedHalt (initialWorld (Finite 0)))))
    = accounts (initialState (Finite 0)).
Proof.
  apply (halted_until_restart initial_currencies _
           (actForcedHalt (initialWorld (Finite 0)))).
  - reflexivity.
  - repeat constructor.
Defined.

(* ===================================================================== *)
(** ** The gauge over time *)
(* ===================================================================== *)

Lemma abs_below_one (q : Q) :
  (-1 < q)%Q → (q < 1)%Q → (JS.abs (Finite q) >=? Finite 1)%js = false.
Proof.
  intros H1 H2. change (Qle_bool 1 (Qabs q) = false).
  apply Qle_bool_false. apply Qabs_case; intros; lra.
Qed.

Lemma small_decay_below_one (v e : number) :
  (v <? Finite 0)%js = false →
  (e >=? Finite 1)%js = true → (e <? Finite 2)%js = true →
  (JS.abs (JS.max (Finite 0) (v - e * Finite (1 # 2)) - v)
   >=? Finite 1)%js = false.
Proof.
  intros Hv H1 H2. destruct e as [| | |e]; try discriminate.
  destruct v as [| | |v]; try done.
  assert (∃ q : Q,
            (JS.max (Finite 0) (Finite v - Finite e * Finite (1 # 2))
             - Finite v)%js = Finite q
            ∧ (-1 < q)%Q ∧ (q < 1)%Q) as (q & -> & Hq1 & Hq2).
  { js_unfold. cbn in *. q_cases; cbn; eexists; (split; [reflexivity|]);
      split; lra. }
  by apply abs_below_one.
Qed.

(** X5: a tick of the timer that finds at least one and less than two
    seconds elapsed, on a gauge that is not negative, lowers the local value
    and moves [last_decay] without handing anything to the store: at the
    timer's one-second period the decay is never persisted. *)
Theorem decay_under_two_seconds_is_local (now : number) (w : World) :
  (vibration_value w <? Finite 0)%js = false →
  (timeElapsed now w >=? Finite 1)%js = true →
  (timeElapsed now w <? Finite 2)%js = true →
  firestore (decayVibration now w) = firestore w
  ∧ vibration_level (currentState (decayVibration now w))
    = {| value := decayed now w; last_decay := now |}.
Proof.
  intros Hv H1 H2.
  pose proof (small_decay_below_one _ _ Hv H1 H2) as Hsmall.
  unfold decayVibration, decayed, timeElapsed, vibration_value in *.
  by rewrite H1, Hsmall.
Qed.

Lemma decay_under_two_seconds_is_local_witness :
  firestore
    (decayVibration (Finite 1000)
       (addVibration (Finite 5) (initialWorld (Finite 0))))
  = firestore (addVibration (Finite 5) (initialWorld (Finite 0)))
  ∧ vibration_level
      (currentState
         (decayVibration (Finite 1000)
            (addVibration (Finite 5) (initialWorld (Finite 0)))))
    = {| value :=
           decayed (Finite 1000)
             (addVibration (Finite 5) (initialWorld (Finite 0)));
         last_decay := Finite 1000 |}.
Proof.
  apply (decay_under_two_seconds_is_local (Finite 1000)
           (addVibration (Finite 5) (initialWorld (Finite 0))));
    reflexivity.
Defined.

Lemma min_not_below (v a : number) :
  in_range v → (Finite 0 <=? a)%js = true →
  (v <=? JS.min (v + a) (VIBRATION_LIMIT * Finite 2))%js = true.
Proof. unfold in_range. intros [H0 H1] Ha. destruct v, a; js_solve. Qed.

Lemma max_not_above (v e : number) :
  in_range v → (e >=? Finite 1)%js = true →
  (JS.max (Finite 0) (v - e * Finite (1 # 2)) <=? v)%js = true.
Proof. unfold in_range. intros [H0 H1] He. destruct v, e; js_solve. Qed.

Lemma leb_refl_in_range (v : number) : in_range v → (v <=? v)%js = true.
Proof. unfold in_range. intros [H0 H1]. destruct v; js_solve. Qed.

(** X6: on a gauge within its bounds, [addVibration] with an amount that is
    not negative never lowers the value, and [decayVibration] never raises
    it. *)
Theorem gauge_is_monotone (w : World) :
  in_range (vibration_value w) →
  (∀ amount : number,
      (Finite 0 <=? amount)%js = true →
      (vibration_value w <=? vibration_value (addVibration amount w))%js
      = true)
  ∧ (∀ now : number,
        (vibration_value (decayVibration now w) <=? vibration_value w)%js
        = true).
Proof.
  intros Hw. split.
  - intros amount Ha. rewrite addVibration_value. by apply min_not_below.
  - intros now. rewrite decayVibration_value.
    destruct (timeElapsed now w >=? Finite 1)%js eqn:He.
    + by apply max_not_above.
    + by apply leb_refl_in_range.
Qed.

Lemma gauge_is_monotone_witness :
  (vibration_value (addVibration (Finite 198) (initialWorld (Finite 0)))
   <=? vibration_value
         (addVibration (Finite 5)
            (addVibration (Finite 198) (initialWorld (Finite 0)))))%js = true.
Proof.
  apply (proj1 (gauge_is_monotone
                  (addVibration (Finite 198) (initialWorld (Finite 0)))
                  ltac:(split; reflexivity)));
    reflexivity.
Defined.

Lemma validateAct_Valid_gauge (CURRENCIES : list currency_def)
    (senderId recipientId : option string) (amount : number)
    (currency : string) (state : SystemState) (isMint : bool)
    (v : validated) :
  validateAct CURRENCIES senderId recipientId amount currency state isMint
  = Valid v →
  isHalted state = false
  ∧ (value (vibration_level state) >=? VIBRATION_LIMIT)%js = false.
Proof.
  unfold validateAct.
  repeat match goal with
    | |- context [if ?b then Error _ else _] =>
        destruct b eqn:?; [discriminate|]
    end.
  done.
Qed.

Lemma charge_below_limit (v cost : number) :
  (v <=? Finite 103)%js = true → (v >=? VIBRATION_LIMIT)%js = false →
  (cost <=? Finite 3)%js = true →
  (JS.min (v + cost) (VIBRATION_LIMIT * Finite 2) <=? Finite 103)%js = true.
Proof. intros H1 H2 H3. destruct v, cost; js_solve. Qed.

Lemma perform_overshoot (CURRENCIES : list currency_def) (a : act)
    (w : World) :
  is_currency_act a = true →
  (vibration_value w <=? Finite 103)%js = true →
  (vibration_value (perform CURRENCIES a w) <=? Finite 103)%js = true.
Proof.
  intros Ha Hv. destruct a; try discriminate; simpl;
    unfold actTransfer, actMintCurrency, actExchangeCurrency, getCurrentState;
    destruct (validateAct _ _ _ _ _ _ _) as [e | v] eqn:Hval; try done;
    apply validateAct_Valid_gauge in Hval as [_ Hg];
    try (destruct (String.eqb _ _); [done|]);
    rewrite addVibration_value; by apply charge_below_limit.
Qed.

(** X7: the limit is a soft gate with a bounded overshoot.  Transfers,
    mints and exchanges are refused from VIBRATION_LIMIT on and charge at
    most 3, so no sequence of them takes a gauge that is at most 103 above
    103. *)
Theorem currency_acts_overshoot_by_three (CURRENCIES : list currency_def)
    (l : list act) (w : World) :
  Forall (fun a => is_currency_act a = true) l →
  (vibration_value w <=? Finite 103)%js = true →
  (vibration_value (run CURRENCIES l w) <=? Finite 103)%js = true.
Proof.
  unfold run. intros Hl. revert w.
  induction Hl as [| a l Ha _ IH]; intros w Hv; simpl; [done|].
  apply IH. by apply perform_overshoot.
Qed.

Lemma currency_acts_overshoot_by_three_witness :
  (vibration_value
     (run initial_currencies
        (repeat (MintCurrency (Some "CORE_BANK_A") (Finite 1) "ALPHA") 40)
        (initialWorld (Finite 0)))
   <=? Finite 103)%js = true.
Proof.
  apply (currency_acts_overshoot_by_three initial_currencies _
           (initialWorld (Finite 0))).
  - apply Forall_forall. intros a Ha.
    apply list_elem_of_In, repeat_spec in Ha. by subst.
  - reflexivity.
Defined.

(* ===================================================================== *)
(** ** Mint, and the acts without a recipient *)
(* ===================================================================== *)

Lemma accepted_is_Valid (CURRENCIES : list currency_def)
    (senderId recipientId : option string) (amount : number)
    (currency : string) (state : SystemState) (isMint : bool) :
  ¬ is_Some (first_failure
               (checks CURRENCIES senderId recipientId amount currency state
                  isMint)) →
  validateAct CURRENCIES senderId recipientId amount currency state isMint
  = Valid {| v_sender := find (has_id senderId) (accounts state);
             v_recipient := find (has_id recipientId) (accounts state);
             v_amount := amount; v_currency := currency |}.
Proof.
  intros H. apply validateAct_accepted.
  destruct (first_failure _); [|done]. exfalso. apply H. eauto.
Qed.

(** X8: an accepted mint raises the balance in the currency of every
    account with the recipient's id by the amount (a missing, zero or NaN
    balance counting as 0), changes no other property of any account, and
    charges 3; no account is debited. *)
Theorem actMintCurrency_accounts (CURRENCIES : list currency_def)
    (recipientId : option string) (amount : number) (currency : string)
    (w : World) (k : nat) (acc : account) :
  rejected CURRENCIES (MintCurrency recipientId amount currency)
    (currentState w) = false →
  accounts (currentState w) !! k = Some acc →
  let w' := actMintCurrency CURRENCIES recipientId amount currency w in
  (∃ acc' : account,
      accounts (currentState w') !! k = Some acc'
      ∧ identity acc' = identity acc
      ∧ (∀ c : string, c ≠ currency → prop acc' c = prop acc c)
      ∧ prop acc' currency
        = if has_id recipientId acc then
            Some (JS.or0 (prop acc currency) + amount)%js
          else prop acc currency)
  ∧ length (accounts (currentState w')) = length (accounts (currentState w))
  ∧ vibration_value w'
    = JS.min (vibration_value w + Finite 3)%js (VIBRATION_LIMIT * Finite 2)%js.
Proof.
  simpl. intros H Hk. apply bool_decide_eq_false in H.
  unfold actMintCurrency, getCurrentState.
  rewrite (accepted_is_Valid _ _ _ _ _ _ _ H). simpl.
  split; [|split; [apply length_map | done]].
  rewrite lookup_map, Hk. simpl. eexists. split; [reflexivity|].
  destruct (has_id recipientId acc); repeat split; try done.
  - intros c Hc. rewrite prop_with_prop. by rewrite decide_False.
  - rewrite prop_with_prop. by rewrite decide_True.
Qed.

(** The scenario of the specification: 50 ALPHA minted to CORE_BANK_A in
    the initial state. *)
Lemma actMintCurrency_accounts_witness :
  (∃ acc' : account,
      accounts
        (currentState
           (actMintCurrency initial_currencies (Some "CORE_BANK_A")
              (Finite 50) "ALPHA" (initialWorld (Finite 0)))) !! 0%nat
      = Some acc'
      ∧ prop acc' "ALPHA" = Some (Finite 1050))
  ∧ vibration_value
      (actMintCurrency initial_currencies (Some "CORE_BANK_A") (Finite 50)
         "ALPHA" (initialWorld (Finite 0)))
    = Finite 3.
Proof.
  destruct (actMintCurrency_accounts initial_currencies (Some "CORE_BANK_A")
              (Finite 50) "ALPHA" (initialWorld (Finite 0)) 0%nat
              {| id := "CORE_BANK_A"; name := "中央銀行A";
                 balances := {[ "ALPHA" := Finite 1000; "BETA" := Finite 500;
                                "GAMMA" := Finite 100 ]} |}
              eq_refl eq_refl)
    as ((acc' & Hk & _ & _ & Hp) & _ & Hv).
  split; [|exact Hv]. exists acc'. split; [exact Hk | exact Hp].
Defined.

Lemma map_unchanged (f : account → account) (l : list account) :
  (∀ acc : account, acc ∈ l → f acc = acc) → map f l = l.
Proof.
  intros Hf. induction l as [| a l IH]; [done|]. simpl.
  rewrite Hf by left. f_equal. apply IH. intros acc Hin. apply Hf. by right.
Qed.

Lemma has_id_falsy (x : option string) (acc : account) :
  JS.truthy_str x = false → id acc ≠ "" → has_id x acc = false.
Proof.
  intros Hx Hacc. unfold has_id, JS.str_eq.
  destruct x as [x|]; [|done]. simpl in Hx. apply negb_false_iff in Hx.
  apply String.eqb_eq in Hx as ->. by apply String.eqb_neq.
Qed.

(** X9: a mint whose recipient id is empty or missing is not refused for
    it: when the other checks pass it credits no account, and still writes
    the accounts to the store and charges 3. *)
Theorem actMintCurrency_without_recipient (CURRENCIES : list currency_def)
    (recipientId : option string) (amount : number) (currency : string)
    (w : World) :
  JS.truthy_str recipientId = false →
  (∀ acc : account, acc ∈ accounts (currentState w) → id acc ≠ "") →
  isHalted (currentState w) = false →
  (vibration_value w >=? VIBRATION_LIMIT)%js = false →
  (Finite 0 <? amount)%js = true →
  currency ∈ code <$> CURRENCIES →
  let w' := actMintCurrency CURRENCIES recipientId amount currency w in
  accounts (currentState w') = accounts (currentState w)
  ∧ vibration_value w'
    = JS.min (vibration_value w + Finite 3)%js (VIBRATION_LIMIT * Finite 2)%js
  ∧ firestore w'
    = [ set_vibration_level (vibration_level (currentState w'));
        set_accounts (accounts (currentState w)) ] ++ firestore w.
Proof.
  intros Hr Hid Hh Hg Ha Hc. cbv zeta.
  unfold actMintCurrency, getCurrentState.
  rewrite validateAct_accepted.
  - simpl.
    rewrite map_unchanged;
      [done | intros acc Hin; by rewrite has_id_falsy by auto].
  - apply first_failure_none. intros b e Hin. unfold checks in Hin.
    unfold vibration_value in Hg. rewrite Hh, Hg, given_decide, Hr in Hin.
    assert ((amount <=? Finite 0)%js || JS.isNaN amount = false) as Hamt
        by (destruct amount; js_solve).
    rewrite Hamt, (bool_decide_eq_false_2 (currency ∉ _)) in Hin by auto.
    simpl in Hin.
    repeat (apply elem_of_cons in Hin as [Hin | Hin]; [congruence|]).
    by apply elem_of_nil in Hin.
Qed.

Lemma actMintCurrency_without_recipient_witness :
  accounts
    (currentState
       (actMintCurrency initial_currencies (Some "") (Finite 7) "GAMMA"
          (initialWorld (Finite 0))))
  = accounts (initialState (Finite 0))
  ∧ vibration_value
      (actMintCurrency initial_currencies (Some "") (Finite 7) "GAMMA"
         (initialWorld (Finite 0)))
    = Finite 3.
Proof.
  destruct (actMintCurrency_without_recipient initial_currencies (Some "")
              (Finite 7) "GAMMA" (initialWorld (Finite 0)))
    as (Hacc & Hv & _); try reflexivity.
  - intros acc Hin.
    apply elem_of_cons in Hin as [-> | Hin]; [discriminate|].
    apply list_elem_of_singleton in Hin as ->. discriminate.
  - apply list_elem_of_fmap. exists {| code := "GAMMA" |}.
    split; [reflexivity|]. right; right; left.
  - split; [exact Hacc | exact Hv].
Defined.

(** X10: a transfer whose recipient id is empty or missing is not refused
    for it: when it is accepted every account with the sender's id is
    debited and every other account is left as it is, so the amount leaves
    the ledger. *)
Theorem actTransfer_without_recipient (CURRENCIES : list currency_def)
    (senderId recipientId : option string) (amount : number)
    (currency : string) (w : World) :
  JS.truthy_str recipientId = false →
  (∀ acc : account, acc ∈ accounts (currentState w) → id acc ≠ "") →
  rejected CURRENCIES (Transfer senderId recipientId amount currency)
    (currentState w) = false →
  accounts
    (currentState
       (actTransfer CURRENCIES senderId recipientId amount currency w))
  = map (fun acc =>
           if has_id senderId acc then
             with_prop acc currency
               (JS.ToNumber (prop acc currency) - amount)%js
           else acc)
      (accounts (currentState w)).
Proof.
  simpl. intros Hr Hid H. apply bool_decide_eq_false in H.
  unfold actTransfer, getCurrentState.
  rewrite (accepted_is_Valid _ _ _ _ _ _ _ H). simpl.
  apply map_ext_in. intros acc Hin. apply list_elem_of_In in Hin.
  destruct (has_id senderId acc); [done|].
  by rewrite has_id_falsy by auto.
Qed.

Lemma actTransfer_without_recipient_witness :
  total_supply "ALPHA"
    (currentState
       (actTransfer initial_currencies (Some "USER_AUDIT_B") None (Finite 20)
          "ALPHA" (initialWorld (Finite 0))))
  = 1030%Q.
Proof.
  unfold total_supply.
  rewrite (actTransfer_without_recipient initial_currencies
             (Some "USER_AUDIT_B") None (Finite 20) "ALPHA"
             (initialWorld (Finite 0)) eq_refl).
  - reflexivity.
  - intros acc Hin.
    apply elem_of_cons in Hin as [-> | Hin]; [discriminate|].
    apply list_elem_of_singleton in Hin as ->. discriminate.
  - reflexivity.
Defined.

(* ===================================================================== *)
(** ** Exchange into a currency without a rate *)
(* ===================================================================== *)

Lemma add_NaN (x : number) : (x + NaN)%js = NaN.
Proof. by destruct x. Qed.

Lemma mul_NaN (x : number) : (x * NaN)%js = NaN.
Proof. by destruct x. Qed.

(** X11: [actExchangeCurrency] validates the currency it debits and never
    the one it credits.  An accepted exchange into a code that has no rate
    (configured or not) debits the amount and leaves NaN as the balance in
    that code. *)
Theorem actExchangeCurrency_without_rate (CURRENCIES : list currency_def)
    (accountId : option string) (amount : number)
    (fromCurrency toCurrency : string) (w : World) (k : nat)
    (acc : account) :
  first_failure
    (checks CURRENCIES accountId accountId amount fromCurrency
       (currentState w) false) = None →
  fromCurrency ≠ toCurrency →
  currency_rates (currentState w) !! toCurrency = None →
  accounts (currentState w) !! k = Some acc →
  has_id accountId acc = true →
  ∃ acc' : account,
    accounts
      (currentState
         (actExchangeCurrency CURRENCIES accountId amount fromCurrency
            toCurrency w)) !! k = Some acc'
    ∧ prop acc' toCurrency = Some NaN
    ∧ prop acc' fromCurrency
      = Some (JS.ToNumber (prop acc fromCurrency) - amount)%js.
Proof.
  intros Hok Hne Hrate Hk Hid.
  unfold actExchangeCurrency, getCurrentState.
  rewrite (validateAct_accepted _ _ _ _ _ _ _ Hok).
  apply String.eqb_neq in Hne as Hb. rewrite Hb. simpl.
  rewrite lookup_map, Hk. simpl. rewrite Hid, Hrate. simpl.
  eexists. split; [reflexivity|].
  rewrite !prop_with_prop, decide_True by done.
  rewrite decide_False by congruence. rewrite decide_True by done.
  by rewrite mul_NaN, add_NaN.
Qed.

Lemma actExchangeCurrency_without_rate_witness :
  ∃ acc' : account,
    accounts
      (currentState
         (actExchangeCurrency initial_currencies (Some "USER_AUDIT_B")
            (Finite 5) "ALPHA" "DELTA" (initialWorld (Finite 0)))) !! 1%nat
    = Some acc'
    ∧ prop acc' "DELTA" = Some NaN
    ∧ prop acc' "ALPHA" = Some (Finite 50 - Finite 5)%js.
Proof.
  exact (actExchangeCurrency_without_rate initial_currencies
           (Some "USER_AUDIT_B") (Finite 5) "ALPHA" "DELTA"
           (initialWorld (Finite 0)) 1%nat
           {| id := "USER_AUDIT_B"; name := "監査者B";
              balances := {[ "ALPHA" := Finite 50; "BETA" := Finite 0;
                             "GAMMA" := Finite 0 ]} |}
           eq_refl ltac:(discriminate) eq_refl eq_refl eq_refl).
Defined.

(* ===================================================================== *)
(** ** A created account *)
(* ===================================================================== *)

Lemma find_app_fresh {A : Type} (p : A → bool) (l l' : list A) :
  existsb p l = false → find p (l ++ l') = find p l'.
Proof.
  induction l as [| a l IH]; [done|]. simpl.
  intros [-> Hl]%orb_false_iff. by apply IH.
Qed.

(** X12: after an account is created its id resolves to it, with a zero
    balance in ALPHA, BETA and GAMMA, and a second creation with the same
    id, whatever the name, changes neither the state nor the store. *)
Theorem created_account_is_found_once (newId newName otherName : option string)
    (w : World) :
  newId ≠ None → newId ≠ Some "" →
  ¬ Exists (fun acc => Some (id acc) = newId) (accounts (currentState w)) →
  isHalted (currentState w) = false →
  let w' := handleCreateAccountAct newId newName w in
  (∀ c : string, c ∈ ["ALPHA"; "BETA"; "GAMMA"] →
     balance_of newId c (currentState w') = Some (Finite 0))
  ∧ currentState (handleCreateAccountAct newId otherName w') = currentState w'
  ∧ firestore (handleCreateAccountAct newId otherName w') = firestore w'.
Proof.
  intros Hn He Hex Hh. cbv zeta.
  assert (negb (JS.truthy_str newId)
          || existsb (has_id newId) (accounts (currentState w)) = false)
    as Hfresh.
  { rewrite <- create_invalid_decide. apply bool_decide_eq_false. tauto. }
  destruct newId as [i|]; [|done].
  assert (has_id (Some i)
            {| id := i;
               name := if JS.truthy_str newName then default "" newName
                       else "監査アカウント " +:+ i;
               balances := {[ "ALPHA" := Finite 0; "BETA" := Finite 0;
                              "GAMMA" := Finite 0 ]} |} = true) as Hi
      by (by apply has_id_true).
  unfold handleCreateAccountAct at 2 3. unfold getCurrentState.
  unfold handleCreateAccountAct, getCurrentState.
  rewrite Hfresh, Hh. simpl.
  apply orb_false_iff in Hfresh as [Ht Hf]. split.
  - intros c Hc. unfold balance_of. simpl.
    rewrite (find_app_fresh _ _ _ Hf). simpl.
    unfold has_id in Hi. simpl in Hi. rewrite Hi. simpl. unfold prop. simpl.
    set_unfold in Hc. by destruct Hc as [-> | [-> | [-> | []]]].
  - rewrite existsb_app. simpl.
    unfold has_id in Hi. simpl in Hi. unfold has_id at 2. simpl.
    rewrite Hi. by rewrite !orb_true_r.
Qed.

Lemma created_account_is_found_once_witness :
  balance_of (Some "AUDIT_C") "BETA"
    (currentState
       (handleCreateAccountAct (Some "AUDIT_C") (Some "C")
          (initialWorld (Finite 0))))
  = Some (Finite 0)
  ∧ currentState
      (handleCreateAccountAct (Some "AUDIT_C") (Some "again")
         (handleCreateAccountAct (Some "AUDIT_C") (Some "C")
            (initialWorld (Finite 0))))
    = currentState
        (handleCreateAccountAct (Some "AUDIT_C") (Some "C")
           (initialWorld (Finite 0))).
Proof.
  destruct (created_account_is_found_once (Some "AUDIT_C") (Some "C")
              (Some "again") (initialWorld (Finite 0)))
    as (Hb & Hs & _).
  - discriminate.
  - discriminate.
  - intros H. simpl in H.
    repeat match goal with
      | H : Exists _ _ |- _ => inversion H; clear H; subst
      end; discriminate.
  - reflexivity.
  - split; [|exact Hs]. apply Hb. right; left.
Defined.

(* ===================================================================== *)
(** ** Supply levels *)
(* ===================================================================== *)

Lemma accepted_supply_in_bounds (amount : number) :
  JS.isNaN amount || (amount <? Finite 0)%js || (Finite 100 <? amount)%js
  = false →
  (Finite 0 <=? amount)%js = true ∧ (amount <=? Finite 100)%js = true.
Proof. intros H. destruct amount; js_solve. Qed.

Lemma perform_supplies_in_bounds (CURRENCIES : list currency_def) (a : act)
    (w : World) :
  supplies_in_bounds (currentState w) →
  supplies_in_bounds (currentState (perform CURRENCIES a w)).
Proof.
  unfold supplies_in_bounds. intros Hw.
  destruct a;
    try (act_cases; simpl; done).
  simpl. unfold actAdjustSupply, getCurrentState.
  destruct (JS.isNaN amount || _ || _) eqn:Hc; [done|]. simpl.
  intros k e [[_ <-] | [_ He]]%lookup_insert_Some; [|by eapply Hw].
  simpl. by apply accepted_supply_in_bounds.
Qed.

(** X13: the supply levels stay numbers in [0, 100]: no sequence of acts
    leads from a state where every entry of [infrastructure] is in these
    bounds to one where an entry is not. *)
Theorem supplies_stay_in_bounds (CURRENCIES : list currency_def)
    (l : list act) (w : World) :
  supplies_in_bounds (currentState w) →
  supplies_in_bounds (currentState (run CURRENCIES l w)).
Proof.
  unfold run. revert w.
  induction l as [| a l IH]; intros w Hw; simpl; [done|].
  apply IH. by apply perform_supplies_in_bounds.
Qed.

Lemma supplies_stay_in_bounds_witness :
  supplies_in_bounds
    (currentState
       (run initial_currencies
          [ AdjustSupply "ENERGY" (Finite 100) (Finite 1000);
            AdjustSupply "NET" (Finite 101) (Finite 2000);
            AdjustSupply "energy" (Finite 0) (Finite 3000);
            AdjustSupply "ENERGY" NaN (Finite 4000) ]
          (initialWorld (Finite 0)))).
Proof.
  apply (supplies_stay_in_bounds initial_currencies _
           (initialWorld (Finite 0))).
  intros k e H. simpl in H. by apply lookup_empty_Some in H.
Defined.

(* ===================================================================== *)
(** ** The vibration meter *)
(* ===================================================================== *)

Lemma elem_of_recolour (S : gset string) (a b c x : string) :
  x ∈ (S ∖ {[ a; b ]}) ∪ {[ c ]} ↔ (x ∈ S ∧ x ≠ a ∧ x ≠ b) ∨ x = c.
Proof.
  rewrite elem_of_union, elem_of_difference, elem_of_union,
    !elem_of_singleton.
  tauto.
Qed.

(** X14: after [updateUI] the meter carries exactly one of the three colour
    classes, whatever it carried before, and keeps its other classes: red
    from VIBRATION_LIMIT on, yellow from half of it, green below (and for
    NaN).  On a running system the meter is red exactly when [validateAct]
    refuses every act for the gauge. *)
Theorem updateUI_meter_colour (state : SystemState) (m : meter) :
  let v := value (vibration_level state) in
  let cl := classList (updateUI_meter state m) in
  ("bg-red-600" ∈ cl ↔ (v >=? VIBRATION_LIMIT)%js = true)
  ∧ ("bg-yellow-500" ∈ cl
     ↔ (v >=? VIBRATION_LIMIT)%js = false
       ∧ (v >=? VIBRATION_LIMIT * Finite (1 # 2))%js = true)
  ∧ ("bg-green-500" ∈ cl
     ↔ (v >=? VIBRATION_LIMIT)%js = false
       ∧ (v >=? VIBRATION_LIMIT * Finite (1 # 2))%js = false)
  ∧ (∀ c : string,
       c ≠ "bg-red-600" → c ≠ "bg-yellow-500" → c ≠ "bg-green-500" →
       c ∈ cl ↔ c ∈ classList m)
  ∧ (isHalted state = false →
     ∀ (CURRENCIES : list currency_def) (senderId recipientId : option string)
       (amount : number) (currency : string) (isMint : bool),
       "bg-red-600" ∈ cl
       ↔ validateAct CURRENCIES senderId recipientId amount currency state
           isMint = Error VibrationExceeded).
Proof.
  cbv zeta. unfold updateUI_meter, validateAct. cbn [classList].
  destruct (JS.geb (value (vibration_level state)) VIBRATION_LIMIT);
    destruct (JS.geb (value (vibration_level state))
                (VIBRATION_LIMIT * Finite (1 # 2))%js);
    (split; [|split; [|split; [|split]]]);
    try (rewrite elem_of_recolour; intuition congruence);
    try (intros c Hr Hy Hgr; rewrite elem_of_recolour; intuition congruence);
    intros -> CURRENCIES senderId recipientId amount currency isMint;
    rewrite elem_of_recolour;
    (split; [intuition congruence|]);
    try (intros _; by right);
    repeat match goal with
      | |- context [if ?b then Error _ else _] => destruct b; [done|]
      end;
    done.
Qed.

Lemma percent_of_limit (q : Q) : (q / 100 * 100 == q)%Q.
Proof. field. Qed.

Lemma percentage_in_bounds (v : number) :
  in_range v →
  (Finite 0 <=? JS.min (Finite 100) (v / VIBRATION_LIMIT * Finite 100))%js
  = true
  ∧ (JS.min (Finite 100) (v / VIBRATION_LIMIT * Finite 100) <=? Finite 100)%js
    = true.
Proof.
  unfold in_range. intros [H0 H1]. destruct v as [| | |q]; try discriminate.
  pose proof (percent_of_limit q) as Hq. js_solve.
Qed.

Lemma percentage_full (v : number) :
  (v >=? VIBRATION_LIMIT)%js = true →
  JS.min (Finite 100) (v / VIBRATION_LIMIT * Finite 100)%js = Finite 100.
Proof.
  intros H. destruct v as [| | |q]; try done.
  pose proof (percent_of_limit q) as Hq. js_solve.
Qed.

(** X15: the width [updateUI] gives the meter of a gauge within its bounds
    is a percentage between 0 and 100, and it is 100 from VIBRATION_LIMIT
    on: the upper half of the gauge's range does not show. *)
Theorem updateUI_meter_width (state : SystemState) (m : meter) :
  let v := value (vibration_level state) in
  let w := width (updateUI_meter state m) in
  (in_range v →
     (Finite 0 <=? w)%js = true ∧ (w <=? Finite 100)%js = true)
  ∧ ((v >=? VIBRATION_LIMIT)%js = true → w = Finite 100).
Proof.
  cbv zeta. unfold updateUI_meter. cbn [width]. split.
  - apply percentage_in_bounds.
  - apply percentage_full.
Qed.

Lemma updateUI_meter_width_witness :
  width
    (updateUI_meter
       (currentState (addVibration (Finite 150) (initialWorld (Finite 0))))
       {| width := Finite 0; classList := ∅ |})
  = Finite 100.
Proof.
  apply (proj2 (updateUI_meter_width
                  (currentState
                     (addVibration (Finite 150) (initialWorld (Finite 0))))
                  {| width := Finite 0; classList := ∅ |})).
  reflexivity.
Defined.

(* ===================================================================== *)
(** ** Render callbacks *)
(* ===================================================================== *)

Section CallbackFacts.

Context {callback : Type} `{EqDecision callback}.

Lemma registerRenderCallback_spec (callbackFn : option callback)
    (l : list callback) :
  NoDup l →
  NoDup (registerRenderCallback callbackFn l)
  ∧ l `prefix_of` registerRenderCallback callbackFn l
  ∧ (∀ fn : callback,
       fn ∈ registerRenderCallback callbackFn l
       ↔ fn ∈ l ∨ callbackFn = Some fn).
Proof.
  intros Hl. unfold registerRenderCallback.
  destruct callbackFn as [f|].
  - destruct (bool_decide (f ∈ l)) eqn:Hf; simpl.
    + apply bool_decide_eq_true in Hf. split; [done|]. split; [done|].
      intros fn. split; [by left|]. by intros [H' | [= <-]].
    + apply bool_decide_eq_false in Hf. split; [|split].
      * apply NoDup_app. split; [done|]. split; [|apply NoDup_singleton].
        intros x Hx Hx'. apply list_elem_of_singleton in Hx'. by subst.
      * by apply prefix_app_r.
      * intros fn. rewrite elem_of_app, list_elem_of_singleton.
        split; [intros [H' | ->] | intros [H' | [= ->]]];
          first [by left | by right].
  - split; [done|]. split; [done|].
    intros fn. split; [by left|]. by intros [H' | [=]].
Qed.

(** X16: [registerRenderCallback] never holds a callback twice.  After any
    series of registrations the list has no duplicates, the callbacks it
    held keep their places at its head, and it holds exactly those and the
    functions that were registered; what is not a function is ignored. *)
Theorem register_all_no_duplicates (fns : list (option callback))
    (l : list callback) :
  NoDup l →
  NoDup (register_all fns l)
  ∧ l `prefix_of` register_all fns l
  ∧ (∀ fn : callback,
       fn ∈ register_all fns l ↔ fn ∈ l ∨ Some fn ∈ fns).
Proof.
  unfold register_all. revert l.
  induction fns as [| f fns IH]; intros l Hl; simpl.
  - split; [done|]. split; [done|].
    intros fn. split; [by left|]. intros [H' | H']; [done|].
    by apply elem_of_nil in H'.
  - destruct (registerRenderCallback_spec f l Hl) as (Hn & Hp & Hin).
    destruct (IH _ Hn) as (Hn' & Hp' & Hin').
    split; [done|]. split; [by etrans|].
    intros fn. rewrite Hin', Hin, elem_of_cons.
    split; [intros [[H' | ->] | H'] | intros [H' | [<- | H']]]; auto.
Qed.

End CallbackFacts.

Lemma register_all_no_duplicates_witness :
  NoDup (register_all [Some 1%nat; None; Some 2%nat; Some 1%nat] [])
  ∧ register_all [Some 1%nat; None; Some 2%nat; Some 1%nat] [] = [1%nat; 2%nat].
Proof.
  split; [|reflexivity].
  apply (register_all_no_duplicates
           [Some 1%nat; None; Some 2%nat; Some 1%nat] []).
  apply NoDup_nil_2.
Defined.

(* ===================================================================== *)
(** ** Dialogue acts *)
(* ===================================================================== *)

Lemma pattern_matches_nonempty (z : zfunction) (prompt : string) :
  pattern_matches z prompt = true → String.eqb prompt "" = false.
Proof. destruct prompt; [by destruct z | done]. Qed.

Lemma reset_is_not_status (prompt : string) :
  pattern_matches resetVib prompt = true →
  pattern_matches getStatus prompt = false.
Proof.
  destruct prompt as [| a prompt]; [done|].
  unfold pattern_matches. cbn [strip_nocase eqb_nocase].
  match goal with
  | |- context [Ascii.eqb ?x (canonicalize a)] =>
      destruct (Ascii.eqb x (canonicalize a)); [|done]
  end.
  destruct prompt as [| b prompt]; [done|].
  cbn [strip_nocase eqb_nocase].
  match goal with
  | |- context [if Ascii.eqb ?x (canonicalize b) then _ else _] =>
      destruct (Ascii.eqb x (canonicalize b)) eqn:Hb; [|done]
  end.
  apply Ascii.eqb_eq in Hb. rewrite <- Hb. intros _. reflexivity.
Qed.

(** X17: the dialogue handler does nothing to a halted system, whatever the
    prompt, the reset command included; nor does it act on a missing or
    empty prompt. *)
Theorem handleDialogueAct_blocked (toFixed : number → nat → string)
    (prompt : option string) (now : number) (w : World) :
  isHalted (currentState w) = true ∨ prompt = None ∨ prompt = Some "" →
  fst (handleDialogueAct toFixed prompt now w) = w.
Proof.
  unfold handleDialogueAct, getCurrentState.
  intros [Hh | [-> | ->]]; [|done|done].
  destruct prompt as [prompt|]; [|done].
  destruct (String.eqb prompt ""); [done|]. by rewrite Hh.
Qed.

Lemma handleDialogueAct_blocked_witness :
  fst (handleDialogueAct (fun _ _ => "0.0") (Some "/reset vibration")
         (Finite 9000) (actForcedHalt (initialWorld (Finite 0))))
  = actForcedHalt (initialWorld (Finite 0)).
Proof.
  apply (handleDialogueAct_blocked (fun _ _ => "0.0")
           (Some "/reset vibration") (Finite 9000)
           (actForcedHalt (initialWorld (Finite 0)))).
  left. reflexivity.
Defined.

(** X18: on a running system the two commands are served before the gauge
    is looked at.  A prompt that matches the status pattern changes
    nothing; one that matches the reset pattern resets the gauge to 0,
    also when the gauge is at or above VIBRATION_LIMIT. *)
Theorem handleDialogueAct_commands (toFixed : number → nat → string)
    (prompt : string) (now : number) (w : World) :
  isHalted (currentState w) = false →
  (pattern_matches getStatus prompt = true →
     fst (handleDialogueAct toFixed (Some prompt) now w) = w)
  ∧ (pattern_matches resetVib prompt = true →
       fst (handleDialogueAct toFixed (Some prompt) now w)
       = resetVibration now w
       ∧ vibration_level
           (currentState (fst (handleDialogueAct toFixed (Some prompt) now w)))
         = {| value := Finite 0; last_decay := now |}).
Proof.
  intros Hh. unfold handleDialogueAct, getCurrentState. split.
  - intros Hs. by rewrite (pattern_matches_nonempty _ _ Hs), Hh, Hs.
  - intros Hr.
    by rewrite (pattern_matches_nonempty _ _ Hr), Hh,
         (reset_is_not_status _ Hr), Hr.
Qed.

Lemma handleDialogueAct_commands_witness :
  vibration_level
    (currentState
       (fst (handleDialogueAct (fun _ _ => "0.0")
               (Some ("/Reset" +:+ String (Ascii.ascii_of_nat 9) " VIBRATION"))
               (Finite 9000)
               (addVibration (Finite 150) (initialWorld (Finite 0))))))
  = {| value := Finite 0; last_decay := Finite 9000 |}.
Proof.
  apply (proj2 (handleDialogueAct_commands (fun _ _ => "0.0")
                  ("/Reset" +:+ String (Ascii.ascii_of_nat 9) " VIBRATION")
                  (Finite 9000)
                  (addVibration (Finite 150) (initialWorld (Finite 0)))
                  eq_refl)).
  reflexivity.
Defined.

(** X19: a prompt that is no command is answered only below the limit.
    From VIBRATION_LIMIT on the handler changes nothing; below it the
    answer costs 0.5 on the gauge and changes nothing else. *)
Theorem handleDialogueAct_inference (toFixed : number → nat → string)
    (prompt : string) (now : number) (w : World) :
  isHalted (currentState w) = false →
  prompt ≠ "" →
  pattern_matches getStatus prompt = false →
  pattern_matches resetVib prompt = false →
  let w' := fst (handleDialogueAct toFixed (Some prompt) now w) in
  ((vibration_value w >=? VIBRATION_LIMIT)%js = true → w' = w)
  ∧ ((vibration_value w >=? VIBRATION_LIMIT)%js = false →
       w' = addVibration (Finite (1 # 2)) w
       ∧ vibration_value w'
         = JS.min (vibration_value w + Finite (1 # 2))%js
             (VIBRATION_LIMIT * Finite 2)%js
       ∧ accounts (currentState w') = accounts (currentState w)
       ∧ isHalted (currentState w') = false).
Proof.
  intros Hh Hp Hs Hr. cbv zeta.
  unfold handleDialogueAct, getCurrentState, vibration_value.
  apply String.eqb_neq in Hp. rewrite Hp, Hh, Hs, Hr.
  split; intros ->; [done|]. simpl. by rewrite Hh.
Qed.

Lemma handleDialogueAct_inference_witness :
  fst (handleDialogueAct (fun _ _ => "0.0") (Some "status?") (Finite 9000)
         (addVibration (Finite 100) (initialWorld (Finite 0))))
  = addVibration (Finite 100) (initialWorld (Finite 0)).
Proof.
  apply (proj1 (handleDialogueAct_inference (fun _ _ => "0.0") "status?"
                  (Finite 9000)
                  (addVibration (Finite 100) (initialWorld (Finite 0)))
                  eq_refl ltac:(discriminate) eq_refl eq_refl)).
  reflexivity.
Defined.

Lemma includes_app_r (needle s t : string) :
  includes needle t = true → includes needle (s +:+ t) = true.
Proof.
  intros H. induction s as [| a s IH]; [done|].
  change (String.prefix needle (String a (s +:+ t))
          || includes needle (s +:+ t) = true).
  rewrite IH. apply orb_true_r.
Qed.

Lemma query_includes_V (toFixed : number → nat → string) (prompt : string)
    (state : SystemState) :
  includes "V" (mobius_transform_query toFixed prompt state) = true.
Proof.
  unfold mobius_transform_query.
  apply includes_app_r, includes_app_r. reflexivity.
Qed.

(** X20: the query [callInternalLogos] builds always carries the mark
    "V:", so [execute_logos_inference] answers it on the protocol or on
    the gauge: the branches on the economy, on the halt state and on the
    guidelines are never taken for it. *)
Theorem inference_takes_two_branches (toFixed : number → nat → string)
    (prompt : string) (state : SystemState) :
  let t :=
    execute_logos_inference (mobius_transform_query toFixed prompt state) in
  t = TopicProtocol ∨ t = TopicVibration.
Proof.
  cbv zeta. unfold execute_logos_inference.
  rewrite query_includes_V.
  destruct (includes "プロトコル" _ || includes "定義" _); [by left|].
  by right.
Qed.

(* ===================================================================== *)
(** ** Further facts on the acts *)
(* ===================================================================== *)

(** X21: only the type 'ENERGY', spelled so, selects the energy supply.
    With any other type an accepted adjustment writes the entry
    [net_stability] and leaves every other entry, [energy_supply]
    included, as it is. *)
Theorem actAdjustSupply_other_type (infrastructureType : string)
    (amount now : number) (w : World) :
  infrastructureType ≠ "ENERGY" →
  (Finite 0 <=? amount)%js = true → (amount <=? Finite 100)%js = true →
  let s' :=
    currentState (actAdjustSupply infrastructureType amount now w) in
  infrastructure s' !! "net_stability"
  = Some {| supply_value := amount; last_change := now |}
  ∧ (∀ k : string, k ≠ "net_stability" →
       infrastructure s' !! k = infrastructure (currentState w) !! k).
Proof.
  intros Ht H0 H100. cbv zeta. unfold actAdjustSupply, getCurrentState.
  assert (JS.isNaN amount || (amount <? Finite 0)%js
          || (Finite 100 <? amount)%js = false) as ->
      by (destruct amount; js_solve).
  apply String.eqb_neq in Ht. rewrite Ht. simpl. split.
  - apply lookup_insert_eq.
  - intros k Hk. by apply lookup_insert_ne.
Qed.

Lemma actAdjustSupply_other_type_witness :
  infrastructure
    (currentState
       (actAdjustSupply "energy" (Finite 30) (Finite 2000)
          (actAdjustSupply "ENERGY" (Finite 90) (Finite 1000)
             (initialWorld (Finite 0))))) !! "energy_supply"
  = Some {| supply_value := Finite 90; last_change := Finite 1000 |}.
Proof.
  rewrite (proj2 (actAdjustSupply_other_type "energy" (Finite 30)
                    (Finite 2000)
                    (actAdjustSupply "ENERGY" (Finite 90) (Finite 1000)
                       (initialWorld (Finite 0)))
                    ltac:(discriminate) eq_refl eq_refl)
             "energy_supply" ltac:(discriminate)).
  reflexivity.
Defined.

(** A transfer between the two accounts of the initial state. *)
Lemma actTransfer_accounts_witness :
  ∃ acc' : account,
    accounts
      (currentState
         (actTransfer initial_currencies (Some "CORE_BANK_A")
            (Some "USER_AUDIT_B") (Finite 10) "ALPHA"
            (initialWorld (Finite 0)))) !! 1%nat = Some acc'
    ∧ prop acc' "ALPHA" = Some (Finite 60).
Proof.
  destruct (actTransfer_accounts initial_currencies (Some "CORE_BANK_A")
              (Some "USER_AUDIT_B") (Finite 10) "ALPHA"
              (initialWorld (Finite 0)) 1%nat
              {| id := "USER_AUDIT_B"; name := "監査者B";
                 balances := {[ "ALPHA" := Finite 50; "BETA" := Finite 0;
                                "GAMMA" := Finite 0 ]} |}
              eq_refl eq_refl)
    as (acc' & Hk & _ & _ & Hp).
  exists acc'. split; [exact Hk | exact Hp].
Defined.

Lemma perform_ids (CURRENCIES : list currency_def) (a : act) (w : World) :
  id <$> accounts (currentState (perform CURRENCIES a w))
  = id <$> accounts (currentState w)
  ∨ ∃ i : string,
      i ≠ "" ∧ i ∉ id <$> accounts (currentState w)
      ∧ id <$> accounts (currentState (perform CURRENCIES a w))
        = (id <$> accounts (currentState w)) ++ [i].
Proof.
  destruct a;
    try (left; act_cases; simpl; try done;
         apply fmap_id_map; intros acc; by repeat case_match).
  simpl. unfold handleCreateAccountAct, getCurrentState.
  destruct (negb (JS.truthy_str newId) || _) eqn:Hinv; [by left|].
  destruct (isHalted (currentState w)); [by left|].
  apply orb_false_iff in Hinv as [Hi Hex]. right.
  destruct newId as [i|]; [|discriminate]. exists i. simpl. split; [|split].
  - apply negb_false_iff in Hi. by apply truthy_str_true in Hi as [_ Hi];
      congruence.
  - intros (acc & Hid & Hacc)%list_elem_of_fmap.
    apply not_true_iff_false in Hex. apply Hex.
    apply existsb_exists. exists acc.
    split; [by apply list_elem_of_In|]. apply has_id_true. congruence.
  - by rewrite fmap_app.
Qed.

(** X23: the acts keep the ids of the accounts unique and not empty: from a
    state whose accounts have distinct, non-empty ids, no sequence of acts
    leads to a state with two accounts of one id or an account without
    one. *)
Theorem ids_stay_unique (CURRENCIES : list currency_def) (l : list act)
    (w : World) :
  NoDup (id <$> accounts (currentState w)) →
  "" ∉ id <$> accounts (currentState w) →
  NoDup (id <$> accounts (currentState (run CURRENCIES l w)))
  ∧ "" ∉ id <$> accounts (currentState (run CURRENCIES l w)).
Proof.
  unfold run. revert w.
  induction l as [| a l IH]; intros w Hn He; simpl; [done|].
  apply IH; destruct (perform_ids CURRENCIES a w)
    as [-> | (i & Hi & Hfresh & ->)]; try done.
  - apply NoDup_app. split; [done|]. split; [|apply NoDup_singleton].
    intros x Hx ->%list_elem_of_singleton. done.
  - rewrite elem_of_app, list_elem_of_singleton. intros [H | H]; [done|].
    by apply Hi.
Qed.

Lemma ids_stay_unique_witness :
  NoDup
    (id <$>
     accounts
       (currentState
          (run initial_currencies
             [ CreateAccount (Some "AUDIT_C") None;
               CreateAccount (Some "AUDIT_C") (Some "again");
               CreateAccount (Some "") (Some "nobody");
               CreateAccount (Some "CORE_BANK_A") None;
               Transfer (Some "CORE_BANK_A") (Some "AUDIT_C") (Finite 1)
                 "ALPHA" ]
             (initialWorld (Finite 0))))).
Proof.
  apply (ids_stay_unique initial_currencies _ (initialWorld (Finite 0))).
  - apply (initialState_ledger_ok (Finite 0)).
  - simpl. intros H.
    apply elem_of_cons in H as [H | H]; [discriminate|].
    apply list_elem_of_singleton in H. discriminate.
Defined.
